(** * lua-nsqpp: the NSQ frame decoder of [src/util.c]

    A shallow embedding of [util.c] and the properties of its two entry
    points, [decodeframe_lua] and [htonl_lua].

    Platform of the model: an LP64 little-endian host (x86-64, AArch64)
    and a Lua with 64-bit integers (5.3 or later): [int] and [int32_t] have
    32 bits, [size_t], [uint64_t] and [lua_Integer] have 64 bits, and the
    [num] member of the byte-swap unions overlays their [ptr] bytes least
    significant byte first.  Conversions between integer
    types wrap around (two's complement); arithmetic on [int] that leaves the
    range of [int] is undefined behaviour in C and is a [Fault] here, as is a
    read outside the string the caller passed. *)

From Stdlib Require Import ZArith List Lia Bool.
From Stdlib Require Import Strings.Byte.
From Stdlib Require Strings.String.
Import ListNotations.

Local Open Scope Z_scope.

(** ** C integer types *)

Module CInt.

Definition wrap_unsigned (w z : Z) : Z := z mod 2 ^ w.

Definition wrap_signed (w z : Z) : Z :=
  (z + 2 ^ (w - 1)) mod 2 ^ w - 2 ^ (w - 1).

Definition to_uint16 : Z -> Z := wrap_unsigned 16.
Definition to_int16 : Z -> Z := wrap_signed 16.
Definition to_uint32 : Z -> Z := wrap_unsigned 32.
Definition to_int32 : Z -> Z := wrap_signed 32.
Definition to_uint64 : Z -> Z := wrap_unsigned 64.
Definition to_int64 : Z -> Z := wrap_signed 64.

(** [size_t] is [unsigned long], [lua_Integer] is [long long]. *)
Definition to_size_t : Z -> Z := to_uint64.
Definition to_lua_Integer : Z -> Z := to_int64.

Definition INT_MIN : Z := - 2 ^ 31.
Definition INT_MAX : Z := 2 ^ 31 - 1.

Definition in_int (z : Z) : bool := (INT_MIN <=? z) && (z <=? INT_MAX).

End CInt.

Import CInt.

(** ** Results of running C code *)

(** [Fault]: the call yields no values, because the C code ran into
    undefined behaviour (a read outside the object, overflow of [int]) or
    because the Lua API raised an error. *)
Inductive result (A : Type) : Type :=
| Done (a : A)
| Fault.

Arguments Done {A} a.
Arguments Fault {A}.

Definition rbind {A B : Type} (r : result A) (k : A -> result B) : result B :=
  match r with
  | Done a => k a
  | Fault => Fault
  end.

(** ** Bytes and memory *)

Definition byte_val (b : byte) : Z := Z.of_N (Byte.to_N b).

Definition byte_of_Z (z : Z) : byte :=
  match Byte.of_N (Z.to_N (z mod 256)) with
  | Some b => b
  | None => x00
  end.

(** Value of a byte sequence stored least significant byte first: how the
    host reads the [num] member of a union whose [ptr] member holds [bs]. *)
Fixpoint le_unsigned (bs : list byte) : Z :=
  match bs with
  | [] => 0
  | b :: bs' => byte_val b + 256 * le_unsigned bs'
  end.

(** The [n] bytes the host stores for the unsigned value [z]. *)
Fixpoint le_bytes (n : nat) (z : Z) : list byte :=
  match n with
  | O => []
  | S n' => byte_of_Z z :: le_bytes n' (z / 256)
  end.

(** A [uint8_t*] or [const char*]: an offset into one object. *)
Record pointer : Type := Ptr { object : list byte; offset : Z }.

Definition ptr_add (p : pointer) (i : Z) : pointer :=
  Ptr (object p) (offset p + i).

(** [p[i]] *)
Definition peek (p : pointer) (i : Z) : result byte :=
  let a := offset p + i in
  if a <? 0 then Fault
  else match nth_error (object p) (Z.to_nat a) with
       | Some b => Done b
       | None => Fault
       end.

(** The [n] bytes at [p], as [memcpy] reads them. *)
Definition load_bytes (p : pointer) (n : Z) : result (list byte) :=
  if (0 <=? offset p) && (0 <=? n)
     && (offset p + n <=? Z.of_nat (length (object p)))
  then Done (firstn (Z.to_nat n) (skipn (Z.to_nat (offset p)) (object p)))
  else Fault.

(** ** The part of the Lua C API that [util.c] calls *)

Module Lua.

Inductive value : Type :=
| LInteger (n : Z)
| LString (s : list byte).

(** The stack of the running C function, index 1 first. *)
Definition lua_State : Type := list value.

Definition lua (A : Type) : Type := lua_State -> result (A * lua_State).

Definition ret {A : Type} (a : A) : lua A := fun L => Done (a, L).

Definition bind {A B : Type} (m : lua A) (k : A -> lua B) : lua B :=
  fun L => match m L with
           | Done (a, L') => k a L'
           | Fault => Fault
           end.

(** A computation on memory only, run inside a C function. *)
Definition eval {A : Type} (r : result A) : lua A :=
  fun L => match r with
           | Done a => Done (a, L)
           | Fault => Fault
           end.

Definition push (v : value) : lua unit := fun L => Done (tt, L ++ [v]).

Definition lua_pushinteger (n : Z) : lua unit :=
  push (LInteger (to_lua_Integer n)).

Definition lua_pushlstring (s : pointer) (len : Z) : lua unit :=
  bind (eval (load_bytes s (to_size_t len))) (fun bs => push (LString bs)).

(** A Lua string in memory is followed by a zero byte. *)
Definition string_ptr (s : list byte) : pointer := Ptr (s ++ [x00]) 0.

Definition luaL_checklstring (arg : nat) : lua (pointer * Z) :=
  fun L => match nth_error L (pred arg) with
           | Some (LString s) => Done ((string_ptr s, Z.of_nat (length s)), L)
           | _ => Fault
           end.

Definition luaL_checkinteger (arg : nat) : lua Z :=
  fun L => match nth_error L (pred arg) with
           | Some (LInteger n) => Done (n, L)
           | _ => Fault
           end.

Fixpoint set_nth (i : nat) (v : value) (L : lua_State) : lua_State :=
  match L, i with
  | [], _ => []
  | _ :: L', O => v :: L'
  | x :: L', S i' => x :: set_nth i' v L'
  end.

(** [lua_replace(L, idx)] for a negative (top-relative) index: the top
    value is stored at [idx], then popped. *)
Definition lua_replace (idx : Z) : lua unit :=
  fun L =>
    let n := Z.of_nat (length L) in
    match rev L with
    | top :: _ =>
        if (idx <? 0) && (0 <=? n + idx)
        then Done (tt, removelast (set_nth (Z.to_nat (n + idx)) top L))
        else Fault
    | [] => Fault
    end.

(** Calling a C function: it runs on a stack holding its arguments and
    returns the number of results, which are the topmost values. *)
Definition call (f : lua Z) (args : list value) : result (list value) :=
  match f args with
  | Done (nres, L) =>
      if (0 <=? nres) && (nres <=? Z.of_nat (length L))
      then Done (skipn (length L - Z.to_nat nres) L)
      else Fault
  | Fault => Fault
  end.

End Lua.

Import Lua.

Declare Scope lua_scope.
Delimit Scope lua_scope with lua.
Notation "x <- m ;; k" := (bind m (fun x => k))
  (at level 61, m at next level, right associativity) : lua_scope.
Notation "m ;; k" := (bind m (fun _ => k))
  (at level 61, right associativity) : lua_scope.

(** ** util.c *)

(** frame types *)
Definition NSQPP_FRAME_INVAL : Z := -2.
Definition NSQPP_FRAME_PARTIAL : Z := -1.
Definition NSQPP_FRAME_RESPONSE : Z := 0.
Definition NSQPP_FRAME_ERROR : Z := 1.
Definition NSQPP_FRAME_MESSAGE : Z := 2.

(** Arithmetic on [int]. *)
Definition int_add (a b : Z) : result Z :=
  if in_int (a + b) then Done (a + b) else Fault.

Definition int_sub (a b : Z) : result Z :=
  if in_int (a - b) then Done (a - b) else Fault.

(** The unions [nsqpp_bswap16_t], [nsqpp_bswap32_t] and [nsqpp_bswap64_t]
    overlay a signed integer [num] and the bytes [ptr].  [numN ptr] is the
    [num] member of a union whose bytes are [ptr]; [ptr32 num] is the [ptr]
    member of a union whose [num] was set. *)
Definition num16 (ptr : list byte) : Z := to_int16 (le_unsigned ptr).
Definition num32 (ptr : list byte) : Z := to_int32 (le_unsigned ptr).
Definition num64 (ptr : list byte) : Z := to_int64 (le_unsigned ptr).
Definition ptr32 (num : Z) : list byte := le_bytes 4 (to_uint32 num).

(** [tmp.ptr[0] = bytes[1]; tmp.ptr[1] = bytes[0]; return tmp.num;] and
    the return type is [uint16_t]. *)
Definition nsqpp_bswap16 (bytes : pointer) : result Z :=
  rbind (peek bytes 1) (fun p0 =>
  rbind (peek bytes 0) (fun p1 =>
  Done (to_uint16 (num16 [p0; p1])))).

Definition nsqpp_bswap32 (bytes : pointer) : result Z :=
  rbind (peek bytes 3) (fun p0 =>
  rbind (peek bytes 2) (fun p1 =>
  rbind (peek bytes 1) (fun p2 =>
  rbind (peek bytes 0) (fun p3 =>
  Done (to_uint32 (num32 [p0; p1; p2; p3])))))).

Definition nsqpp_bswap64 (bytes : pointer) : result Z :=
  rbind (peek bytes 7) (fun p0 =>
  rbind (peek bytes 6) (fun p1 =>
  rbind (peek bytes 5) (fun p2 =>
  rbind (peek bytes 4) (fun p3 =>
  rbind (peek bytes 3) (fun p4 =>
  rbind (peek bytes 2) (fun p5 =>
  rbind (peek bytes 1) (fun p6 =>
  rbind (peek bytes 0) (fun p7 =>
  Done (to_uint64 (num64 [p0; p1; p2; p3; p4; p5; p6; p7])))))))))).

Local Open Scope lua_scope.

Definition decodeframe_lua : lua Z :=
  dl <- luaL_checklstring 1 ;;
  let data := fst dl in
  let len := snd dl in
  let frame := data in
  (* need more bytes *)
  if len <? 4 then
    lua_pushinteger NSQPP_FRAME_PARTIAL ;;
    lua_pushinteger (to_size_t (4 - len)) ;;
    ret 2
  else
    (* decode size *)
    sz <- eval (nsqpp_bswap32 frame) ;;
    let payload := to_int32 sz in
    (* need more bytes *)
    if to_size_t (len - 4) <? to_size_t payload then
      lua_pushinteger NSQPP_FRAME_PARTIAL ;;
      lua_pushinteger (to_size_t (to_size_t payload - to_size_t (len - 4))) ;;
      ret 2
    else
      (* decode frame type *)
      ty <- eval (nsqpp_bswap32 (ptr_add frame 4)) ;;
      let type := to_int32 ty in
      (* push frame type and consumed bytes *)
      lua_pushinteger type ;;
      consumed <- eval (int_add payload 4) ;;
      lua_pushinteger consumed ;;
      (* check frame type *)
      if (type =? NSQPP_FRAME_RESPONSE) || (type =? NSQPP_FRAME_ERROR) then
        (* push response data *)
        n <- eval (int_sub payload 4) ;;
        lua_pushlstring (ptr_add data 8) n ;;
        ret 3
      else if type =? NSQPP_FRAME_MESSAGE then
        (* message *)
        n <- eval (int_sub payload 30) ;;
        lua_pushlstring (ptr_add data 34) n ;;
        (* message-id *)
        lua_pushlstring (ptr_add data 18) 16 ;;
        (* nanoseconds *)
        ns <- eval (nsqpp_bswap64 (ptr_add data 8)) ;;
        lua_pushinteger ns ;;
        (* attempts *)
        att <- eval (nsqpp_bswap16 (ptr_add data 10)) ;;
        lua_pushinteger att ;;
        ret 6
      else
        (* invalid frame data *)
        lua_pushinteger NSQPP_FRAME_INVAL ;;
        lua_replace (-3) ;;
        ret 2.

(** [htonl] of the host: the 32-bit value whose bytes in memory are the
    bytes of [hostlong], most significant first. *)
Definition htonl (hostlong : Z) : Z :=
  le_unsigned (rev (le_bytes 4 hostlong)).

Definition htonl_lua : lua Z :=
  len <- luaL_checkinteger 1 ;;
  (* nsqpp_bswap32_t data = { htonl( len ) }; *)
  let num := to_int32 (htonl (to_uint32 len)) in
  lua_pushlstring (Ptr (ptr32 num) 0) 4 ;;
  ret 1.

Local Close Scope lua_scope.

(** The two functions as Lua sees them. *)
Definition decodeframe (buf : list byte) : result (list value) :=
  call decodeframe_lua [LString buf].

Definition htonl_bytes (n : Z) : result (list value) :=
  call htonl_lua [LInteger n].

(** ** Vocabulary of the properties *)

(** Value of a byte sequence read most significant byte first. *)
Definition be_unsigned (bs : list byte) : Z :=
  fold_left (fun acc b => acc * 256 + byte_val b) bs 0.

(** Bytes [off, off+n) of a buffer. *)
Definition sub_bytes (buf : list byte) (off n : Z) : list byte :=
  firstn (Z.to_nat n) (skipn (Z.to_nat off) buf).

Definition buf_len (buf : list byte) : Z := Z.of_nat (length buf).

(** The header fields: big-endian, signed 32 bits. *)
Definition frame_size (buf : list byte) : Z :=
  to_int32 (be_unsigned (sub_bytes buf 0 4)).

Definition frame_type (buf : list byte) : Z :=
  to_int32 (be_unsigned (sub_bytes buf 4 4)).

(** A Lua string is shorter than [2^63] bytes: its length is a
    [lua_Integer] too. *)
Definition lua_string (buf : list byte) : Prop := buf_len buf < 2 ^ 63.

(** ** Sample buffers *)

(** size 6, type 0 (Response), body "OK". *)
Definition ok_frame : list byte :=
  [x00; x00; x00; x06; x00; x00; x00; x00; x4f; x4b].

Definition message_id : list byte :=
  [x30; x31; x32; x33; x34; x35; x36; x37;
   x38; x39; x61; x62; x63; x64; x65; x66].

Definition message_body : list byte := [x68; x65; x6c; x6c; x6f].

(** size 35, type 2 (Message), timestamp 1500000000000000000 ns
    (0x14d1120d7b160000), attempts 1, id "0123456789abcdef", body
    "hello". *)
Definition message_frame : list byte :=
  [x00; x00; x00; x23; x00; x00; x00; x02;
   x14; xd1; x12; x0d; x7b; x16; x00; x00;
   x00; x01]
  ++ message_id ++ message_body.

(** size 4, type 99. *)
Definition unknown_frame : list byte :=
  [x00; x00; x00; x04; x00; x00; x00; x63].

(** size 2 with the bytes 0,0,0,0 where a type is read. *)
Definition undersized_response : list byte :=
  [x00; x00; x00; x02; x00; x00; x00; x00].

(** size 3 with the bytes 0,0,0,1 where a type is read. *)
Definition undersized_error : list byte :=
  [x00; x00; x00; x03; x00; x00; x00; x01].

(** The header of a frame of size 8 and type 2 (Message), no payload
    yet. *)
Definition message_header8 : list byte :=
  [x00; x00; x00; x08; x00; x00; x00; x02].

(** size -1 (0xffffffff). *)
Definition negative_frame : list byte :=
  [xff; xff; xff; xff; x00; x00; x00; x00].

(** ** Opening the module: [luaopen_nsqpp_util] *)

(** The module table is built on a stack that holds tables, C functions
    and strings besides integers; the stack of the two functions above
    never does. *)
Module LuaOpen.

Import Stdlib.Strings.String.

Local Unset Elimination Schemes.

Inductive tvalue : Type :=
| TInteger (n : Z)
| TString (s : string)
| TCFunction (f : lua Z)
| TTable (t : list (string * tvalue)).

Local Set Elimination Schemes.

Definition tstate : Type := list tvalue.

Definition tlua (A : Type) : Type := tstate -> result (A * tstate).

Definition tret {A : Type} (a : A) : tlua A := fun L => Done (a, L).

Definition tbind {A B : Type} (m : tlua A) (k : A -> tlua B) : tlua B :=
  fun L => match m L with
           | Done (a, L') => k a L'
           | Fault => Fault
           end.

Definition tpush (v : tvalue) : tlua unit := fun L => Done (tt, L ++ [v]).

Definition lua_newtable : tlua unit := tpush (TTable []).
Definition lua_pushstring (s : string) : tlua unit := tpush (TString s).
Definition lua_pushcfunction (f : lua Z) : tlua unit := tpush (TCFunction f).
Definition lua_pushinteger (n : Z) : tlua unit :=
  tpush (TInteger (to_lua_Integer n)).

(** [t[k] = v] on a table with string keys: the entry of [k] is replaced,
    or added when there is none. *)
Fixpoint rawset (k : string) (v : tvalue) (t : list (string * tvalue))
  : list (string * tvalue) :=
  match t with
  | [] => [(k, v)]
  | (k', v') :: t' =>
      if String.eqb k k' then (k, v) :: t' else (k', v') :: rawset k v t'
  end.

Fixpoint rawget (t : list (string * tvalue)) (k : string) : option tvalue :=
  match t with
  | [] => None
  | (k', v') :: t' => if String.eqb k k' then Some v' else rawget t' k
  end.

Fixpoint tset_nth (i : nat) (v : tvalue) (L : tstate) : tstate :=
  match L, i with
  | [], _ => []
  | _ :: L', O => v :: L'
  | x :: L', S i' => x :: tset_nth i' v L'
  end.

(** [lua_rawset(L, idx)] for a negative index: the value on top and the
    key below it are popped and stored in the table at [idx]. *)
Definition lua_rawset (idx : Z) : tlua unit :=
  fun L =>
    let n := Z.of_nat (List.length L) in
    let i := n + idx in
    match rev L with
    | v :: TString k :: below =>
        if (idx <? 0) && (0 <=? i) && (i <=? n - 3)
        then match nth_error L (Z.to_nat i) with
             | Some (TTable t) =>
                 Done (tt, tset_nth (Z.to_nat i) (TTable (rawset k v t))
                             (rev below))
             | _ => Fault
             end
        else Fault
    | _ => Fault
    end.

Definition tcall (f : tlua Z) : result (list tvalue) :=
  match f [] with
  | Done (nres, L) =>
      if (0 <=? nres) && (nres <=? Z.of_nat (List.length L))
      then Done (skipn (List.length L - Z.to_nat nres) L)
      else Fault
  | Fault => Fault
  end.

Declare Scope tlua_scope.
Delimit Scope tlua_scope with tlua.
Notation "m ;; k" := (tbind m (fun _ => k))
  (at level 61, right associativity) : tlua_scope.

Local Open Scope tlua_scope.
Local Open Scope string_scope.

(** [struct luaL_Reg]; a null [name] ends an array of them. *)
Record luaL_Reg : Type := Reg { name : option string; func : option (lua Z) }.

Definition nsqpp_pushinteger2tbl (k : string) (v : Z) : tlua unit :=
  lua_pushstring k ;;
  lua_pushinteger v ;;
  lua_rawset (-3).

(** [while( ptr->name ){ ...; ptr++; }] over the array at [ptr]. *)
Fixpoint register (ptr : list luaL_Reg) : tlua unit :=
  match ptr with
  | [] => fun _ => Fault
  | r :: ptr' =>
      match name r with
      | None => tret tt
      | Some nm =>
          lua_pushstring nm ;;
          match func r with
          | Some f => lua_pushcfunction f
          | None => fun _ => Fault
          end ;;
          lua_rawset (-3) ;;
          register ptr'
      end
  end.

Definition method : list luaL_Reg :=
  [ Reg (Some "htonl") (Some htonl_lua);
    Reg (Some "decodeframe") (Some decodeframe_lua);
    Reg None None ].

Definition luaopen_nsqpp_util : tlua Z :=
  lua_newtable ;;
  register method ;;
  (* export constants *)
  nsqpp_pushinteger2tbl "FRAME_INVAL" NSQPP_FRAME_INVAL ;;
  nsqpp_pushinteger2tbl "FRAME_PARTIAL" NSQPP_FRAME_PARTIAL ;;
  nsqpp_pushinteger2tbl "FRAME_RESPONSE" NSQPP_FRAME_RESPONSE ;;
  nsqpp_pushinteger2tbl "FRAME_ERROR" NSQPP_FRAME_ERROR ;;
  nsqpp_pushinteger2tbl "FRAME_MESSAGE" NSQPP_FRAME_MESSAGE ;;
  tret 1.

(** What [require] gets. *)
Definition nsqpp_util : result (list tvalue) := tcall luaopen_nsqpp_util.

(** Calling an entry of the module table. *)
Definition call_entry (t : list (string * tvalue)) (k : string)
  (args : list value) : result (list value) :=
  match rawget t k with
  | Some (TCFunction f) => call f args
  | _ => Fault
  end.

End LuaOpen.

(** ** More sample buffers *)

(** size 5, type 1 (Error), body "E". *)
Definition error_frame : list byte :=
  [x00; x00; x00; x05; x00; x00; x00; x01; x45].

(** A Message frame of size 30 (empty body) whose timestamp has its top
    bit set: 0x8000000000000001; attempts 2. *)
Definition late_message_frame : list byte :=
  [x00; x00; x00; x1e; x00; x00; x00; x02;
   x80; x00; x00; x00; x00; x00; x00; x01;
   x00; x02]
  ++ message_id.


(** ** Integer conversions *)

Module CIntFacts.

Ltac pows :=
  change (2 ^ 64) with 18446744073709551616 in *;
  change (2 ^ 63) with 9223372036854775808 in *;
  change (2 ^ 32) with 4294967296 in *;
  change (2 ^ 31) with 2147483648 in *;
  change (2 ^ 16) with 65536 in *;
  change (2 ^ 15) with 32768 in *.

Ltac unwrap :=
  unfold to_lua_Integer, to_size_t, to_int64, to_uint64, to_int32, to_uint32,
    to_int16, to_uint16, wrap_signed, wrap_unsigned, INT_MIN, INT_MAX in *;
  simpl Z.sub in *;
  pows.

Ltac pow_lia := pows; lia.

Ltac wrap_lia := unwrap; Z.div_mod_to_equations; lia.

Lemma to_int32_small z : - 2 ^ 31 <= z < 2 ^ 31 -> to_int32 z = z.
Proof. intros H. wrap_lia. Qed.

Lemma to_int32_range z : - 2 ^ 31 <= to_int32 z < 2 ^ 31.
Proof. wrap_lia. Qed.

Lemma to_uint32_small z : 0 <= z < 2 ^ 32 -> to_uint32 z = z.
Proof. intros H. wrap_lia. Qed.

Lemma to_uint32_int32 z : to_uint32 (to_int32 z) = to_uint32 z.
Proof. wrap_lia. Qed.

Lemma to_int32_uint32 z : to_int32 (to_uint32 z) = to_int32 z.
Proof. wrap_lia. Qed.

Lemma to_uint16_int16 z : to_uint16 (to_int16 z) = to_uint16 z.
Proof. wrap_lia. Qed.

Lemma to_uint16_small z : 0 <= z < 2 ^ 16 -> to_uint16 z = z.
Proof. intros H. wrap_lia. Qed.

Lemma to_uint64_int64 z : to_uint64 (to_int64 z) = to_uint64 z.
Proof. wrap_lia. Qed.

Lemma to_int64_uint64 z : to_int64 (to_uint64 z) = to_int64 z.
Proof. wrap_lia. Qed.

Lemma to_lua_Integer_small z :
  - 2 ^ 63 <= z < 2 ^ 63 -> to_lua_Integer z = z.
Proof. intros H. wrap_lia. Qed.

Lemma to_size_t_small z : 0 <= z < 2 ^ 64 -> to_size_t z = z.
Proof. intros H. wrap_lia. Qed.

(** A negative [int] converted to [size_t]. *)
Lemma to_size_t_neg z : - 2 ^ 64 <= z < 0 -> to_size_t z = z + 2 ^ 64.
Proof. intros H. wrap_lia. Qed.

Lemma in_int_true z : in_int z = true <-> - 2 ^ 31 <= z < 2 ^ 31.
Proof.
  unfold in_int. rewrite andb_true_iff, !Z.leb_le. unwrap. lia.
Qed.

End CIntFacts.

Import CIntFacts.

(** ** Bytes *)

Lemma byte_val_range b : 0 <= byte_val b < 256.
Proof.
  unfold byte_val. pose proof (Byte.to_N_bounded b). lia.
Qed.

Lemma byte_val_of_Z z : byte_val (byte_of_Z z) = z mod 256.
Proof.
  unfold byte_val, byte_of_Z.
  assert (Hr : 0 <= z mod 256 < 256) by (apply Z.mod_pos_bound; lia).
  destruct (Byte.of_N (Z.to_N (z mod 256))) as [b|] eqn:E.
  - apply Byte.to_of_N in E. rewrite E. lia.
  - apply Byte.of_N_None_iff in E. lia.
Qed.

Lemma byte_of_Z_val b : byte_of_Z (byte_val b) = b.
Proof.
  unfold byte_of_Z, byte_val.
  pose proof (Byte.to_N_bounded b) as Hb.
  rewrite Z.mod_small by lia.
  rewrite N2Z.id, Byte.of_to_N. reflexivity.
Qed.

Lemma le_unsigned_range bs :
  0 <= le_unsigned bs < 256 ^ Z.of_nat (length bs).
Proof.
  induction bs as [|b bs IH].
  - simpl. lia.
  - cbn [le_unsigned length]. rewrite Nat2Z.inj_succ, Z.pow_succ_r by lia.
    pose proof (byte_val_range b). lia.
Qed.

Lemma le_unsigned_bytes n z :
  le_unsigned (le_bytes n z) = z mod 256 ^ Z.of_nat n.
Proof.
  revert z. induction n as [|n IH]; intros z.
  - simpl. symmetry. apply Z.mod_1_r.
  - cbn [le_bytes le_unsigned]. rewrite IH, byte_val_of_Z.
    rewrite Nat2Z.inj_succ, Z.pow_succ_r by lia.
    rewrite Z.rem_mul_r by lia. reflexivity.
Qed.

Lemma le_bytes_unsigned bs : le_bytes (length bs) (le_unsigned bs) = bs.
Proof.
  induction bs as [|b bs IH].
  - reflexivity.
  - cbn [length le_bytes le_unsigned].
    pose proof (byte_val_range b) as Hb.
    assert (Hm : (byte_val b + 256 * le_unsigned bs) mod 256
                 = byte_val b mod 256)
      by (Z.div_mod_to_equations; lia).
    assert (Hd : (byte_val b + 256 * le_unsigned bs) / 256 = le_unsigned bs)
      by (Z.div_mod_to_equations; lia).
    rewrite Hd, IH. f_equal.
    rewrite <- (byte_of_Z_val b) at 2. unfold byte_of_Z. rewrite Hm.
    reflexivity.
Qed.

Lemma length_le_bytes n z : length (le_bytes n z) = n.
Proof.
  revert z. induction n as [|n IH]; intros z; simpl; [|rewrite IH]; reflexivity.
Qed.

Lemma be_unsigned_snoc bs b :
  be_unsigned (bs ++ [b]) = be_unsigned bs * 256 + byte_val b.
Proof. unfold be_unsigned. rewrite fold_left_app. reflexivity. Qed.

(** Reading most significant byte first is reading the reversed bytes the
    way the host does. *)
Lemma le_unsigned_rev bs : le_unsigned (rev bs) = be_unsigned bs.
Proof.
  induction bs as [|b bs IH] using rev_ind.
  - reflexivity.
  - rewrite rev_app_distr, be_unsigned_snoc. cbn [rev app le_unsigned].
    rewrite IH. lia.
Qed.

Lemma be_unsigned_range bs :
  0 <= be_unsigned bs < 256 ^ Z.of_nat (length bs).
Proof.
  rewrite <- le_unsigned_rev, <- length_rev. apply le_unsigned_range.
Qed.

(** ** Reading the caller's string *)

Section Reads.

Variable buf : list byte.

Lemma peek_string off i :
  0 <= off + i < buf_len buf ->
  peek (Ptr (buf ++ [x00]) off) i = Done (nth (Z.to_nat (off + i)) buf x00).
Proof.
  unfold buf_len, peek. intros H. cbn [object offset].
  destruct (off + i <? 0) eqn:E; [apply Z.ltb_lt in E; lia|].
  rewrite nth_error_app1 by lia.
  rewrite (nth_error_nth' buf x00) by lia. reflexivity.
Qed.

(** The byte after the string is the terminator; there is nothing to
    read behind it. *)
Lemma peek_terminator off i :
  off + i = buf_len buf -> peek (Ptr (buf ++ [x00]) off) i = Done x00.
Proof.
  unfold buf_len, peek. intros H. cbn [object offset].
  destruct (off + i <? 0) eqn:E; [apply Z.ltb_lt in E; lia|].
  rewrite nth_error_app2 by lia.
  replace (Z.to_nat (off + i) - length buf)%nat with 0%nat by lia.
  reflexivity.
Qed.


Lemma sub_bytes_nil off : sub_bytes buf off 0 = [].
Proof. reflexivity. Qed.

Lemma sub_bytes_cons off n :
  0 <= off -> 0 < n -> off + n <= buf_len buf ->
  sub_bytes buf off n
  = nth (Z.to_nat off) buf x00 :: sub_bytes buf (off + 1) (n - 1).
Proof.
  unfold buf_len, sub_bytes. intros Ho Hn Hl.
  replace (Z.to_nat n) with (S (Z.to_nat (n - 1))) by lia.
  replace (Z.to_nat (off + 1)) with (S (Z.to_nat off)) by lia.
  assert (Hlt : (Z.to_nat off < length buf)%nat) by lia.
  generalize (Z.to_nat (n - 1)). revert Hlt. generalize (Z.to_nat off).
  clear. induction buf as [|b l IH]; intros k Hk m.
  - simpl in Hk. lia.
  - destruct k as [|k].
    + reflexivity.
    + cbn [skipn nth]. apply IH. simpl in Hk. lia.
Qed.

Lemma length_sub_bytes off n :
  0 <= off -> 0 <= n -> off + n <= buf_len buf ->
  Z.of_nat (length (sub_bytes buf off n)) = n.
Proof.
  unfold buf_len, sub_bytes. intros. rewrite length_firstn, length_skipn. lia.
Qed.

Lemma load_string off n :
  0 <= off -> 0 <= n -> off + n <= buf_len buf ->
  load_bytes (Ptr (buf ++ [x00]) off) n = Done (sub_bytes buf off n).
Proof.
  unfold buf_len, load_bytes, sub_bytes. intros Ho Hn Hl. cbn [object offset].
  rewrite length_app. cbn [length].
  replace ((0 <=? off) && (0 <=? n)
           && (off + n <=? Z.of_nat (length buf + 1))) with true
    by (symmetry; rewrite !andb_true_iff, !Z.leb_le; lia).
  f_equal. rewrite skipn_app, firstn_app.
  replace (Z.to_nat n - length (skipn (Z.to_nat off) buf))%nat with 0%nat
    by (rewrite length_skipn; lia).
  cbn [firstn]. apply app_nil_r.
Qed.

Lemma load_string_outside off n :
  buf_len buf + 1 < off + n ->
  load_bytes (Ptr (buf ++ [x00]) off) n = Fault.
Proof.
  unfold buf_len, load_bytes. intros H. cbn [object offset].
  rewrite length_app. cbn [length].
  replace (off + n <=? Z.of_nat (length buf + 1)) with false
    by (symmetry; apply Z.leb_gt; lia).
  rewrite andb_false_r. reflexivity.
Qed.

(** On a little-endian host the three readers return the big-endian
    value of the bytes they are pointed at. *)
Lemma nsqpp_bswap16_string off :
  0 <= off -> off + 2 <= buf_len buf ->
  nsqpp_bswap16 (Ptr (buf ++ [x00]) off)
  = Done (be_unsigned (sub_bytes buf off 2)).
Proof.
  intros Ho Hl. unfold nsqpp_bswap16, num16.
  rewrite !peek_string by lia. cbn [rbind].
  rewrite (sub_bytes_cons off 2) by lia.
  rewrite (sub_bytes_cons (off + 1) (2 - 1)) by lia.
  change (2 - 1 - 1) with 0. rewrite sub_bytes_nil.
  rewrite Z.add_0_r.
  set (b0 := nth (Z.to_nat off) _ _). set (b1 := nth (Z.to_nat (off + 1)) _ _).
  change [b1; b0] with (rev [b0; b1]). rewrite le_unsigned_rev.
  rewrite to_uint16_int16.
  rewrite to_uint16_small; [reflexivity|].
  apply (be_unsigned_range [b0; b1]).
Qed.

Lemma nsqpp_bswap32_string off :
  0 <= off -> off + 4 <= buf_len buf ->
  nsqpp_bswap32 (Ptr (buf ++ [x00]) off)
  = Done (be_unsigned (sub_bytes buf off 4)).
Proof.
  intros Ho Hl. unfold nsqpp_bswap32, num32.
  rewrite !peek_string by lia. cbn [rbind].
  rewrite (sub_bytes_cons off 4) by lia.
  rewrite (sub_bytes_cons (off + 1) (4 - 1)) by lia.
  rewrite (sub_bytes_cons (off + 1 + 1) (4 - 1 - 1)) by lia.
  rewrite (sub_bytes_cons (off + 1 + 1 + 1) (4 - 1 - 1 - 1)) by lia.
  change (4 - 1 - 1 - 1 - 1) with 0. rewrite sub_bytes_nil.
  rewrite Z.add_0_r.
  replace (off + 1 + 1) with (off + 2) by lia.
  replace (off + 2 + 1) with (off + 3) by lia.
  set (b0 := nth (Z.to_nat off) _ _). set (b1 := nth (Z.to_nat (off + 1)) _ _).
  set (b2 := nth (Z.to_nat (off + 2)) _ _).
  set (b3 := nth (Z.to_nat (off + 3)) _ _).
  change [b3; b2; b1; b0] with (rev [b0; b1; b2; b3]).
  rewrite le_unsigned_rev, to_uint32_int32.
  rewrite to_uint32_small; [reflexivity|].
  apply (be_unsigned_range [b0; b1; b2; b3]).
Qed.

Lemma nsqpp_bswap64_string off :
  0 <= off -> off + 8 <= buf_len buf ->
  nsqpp_bswap64 (Ptr (buf ++ [x00]) off)
  = Done (be_unsigned (sub_bytes buf off 8)).
Proof.
  intros Ho Hl. unfold nsqpp_bswap64, num64.
  rewrite !peek_string by lia. cbn [rbind].
  rewrite (sub_bytes_cons off 8) by lia.
  rewrite (sub_bytes_cons (off + 1) (8 - 1)) by lia.
  rewrite (sub_bytes_cons (off + 1 + 1) (8 - 1 - 1)) by lia.
  rewrite (sub_bytes_cons (off + 1 + 1 + 1) (8 - 1 - 1 - 1)) by lia.
  rewrite (sub_bytes_cons (off + 1 + 1 + 1 + 1) (8 - 1 - 1 - 1 - 1)) by lia.
  rewrite (sub_bytes_cons (off + 1 + 1 + 1 + 1 + 1) (8 - 1 - 1 - 1 - 1 - 1))
    by lia.
  rewrite (sub_bytes_cons (off + 1 + 1 + 1 + 1 + 1 + 1)
             (8 - 1 - 1 - 1 - 1 - 1 - 1)) by lia.
  rewrite (sub_bytes_cons (off + 1 + 1 + 1 + 1 + 1 + 1 + 1)
             (8 - 1 - 1 - 1 - 1 - 1 - 1 - 1)) by lia.
  change (8 - 1 - 1 - 1 - 1 - 1 - 1 - 1 - 1) with 0. rewrite sub_bytes_nil.
  rewrite Z.add_0_r.
  replace (off + 1 + 1) with (off + 2) by lia.
  replace (off + 2 + 1) with (off + 3) by lia.
  replace (off + 3 + 1) with (off + 4) by lia.
  replace (off + 4 + 1) with (off + 5) by lia.
  replace (off + 5 + 1) with (off + 6) by lia.
  replace (off + 6 + 1) with (off + 7) by lia.
  set (b0 := nth (Z.to_nat off) _ _). set (b1 := nth (Z.to_nat (off + 1)) _ _).
  set (b2 := nth (Z.to_nat (off + 2)) _ _).
  set (b3 := nth (Z.to_nat (off + 3)) _ _).
  set (b4 := nth (Z.to_nat (off + 4)) _ _).
  set (b5 := nth (Z.to_nat (off + 5)) _ _).
  set (b6 := nth (Z.to_nat (off + 6)) _ _).
  set (b7 := nth (Z.to_nat (off + 7)) _ _).
  change [b7; b6; b5; b4; b3; b2; b1; b0]
    with (rev [b0; b1; b2; b3; b4; b5; b6; b7]).
  rewrite le_unsigned_rev, to_uint64_int64.
  unfold to_uint64, wrap_unsigned. rewrite Z.mod_small; [reflexivity|].
  apply (be_unsigned_range [b0; b1; b2; b3; b4; b5; b6; b7]).
Qed.

End Reads.

(** ** Running the decoder *)

Ltac lua_run :=
  cbn -[Z.of_nat Z.ltb Z.leb Z.eqb Z.add Z.sub Z.to_nat Nat.sub
        to_size_t to_lua_Integer to_int32
        nsqpp_bswap16 nsqpp_bswap32 nsqpp_bswap64 load_bytes int_add int_sub
        ptr_add string_ptr].

Ltac ptr_norm :=
  unfold string_ptr, ptr_add; cbn [object offset]; rewrite ?Z.add_0_l.

Ltac frame_lia :=
  unfold NSQPP_FRAME_INVAL, NSQPP_FRAME_PARTIAL, NSQPP_FRAME_RESPONSE,
    NSQPP_FRAME_ERROR, NSQPP_FRAME_MESSAGE, INT_MIN, INT_MAX, lua_string in *;
  pows; lia.

Section Decoder.

Variable buf : list byte.

Local Notation "'len'" := (buf_len buf).
Local Notation "'size'" := (frame_size buf).

Lemma buf_len_nonneg : 0 <= len.
Proof. unfold buf_len. lia. Qed.

Lemma frame_size_range : - 2 ^ 31 <= size < 2 ^ 31.
Proof. apply to_int32_range. Qed.

Lemma decodeframe_short :
  len < 4 ->
  decodeframe buf = Done [LInteger NSQPP_FRAME_PARTIAL; LInteger (4 - len)].
Proof.
  intros H. unfold decodeframe, call, decodeframe_lua. lua_run.
  fold len. rewrite (proj2 (Z.ltb_lt _ _) H). lua_run.
  pose proof buf_len_nonneg.
  rewrite to_size_t_small by frame_lia.
  rewrite !to_lua_Integer_small by frame_lia.
  reflexivity.
Qed.

Lemma decodeframe_partial :
  4 <= len -> to_size_t (len - 4) < to_size_t size ->
  decodeframe buf
  = Done [LInteger NSQPP_FRAME_PARTIAL;
          LInteger (to_lua_Integer
                      (to_size_t (to_size_t size - to_size_t (len - 4))))].
Proof.
  intros H1 H2. unfold decodeframe, call, decodeframe_lua. lua_run.
  fold len.
  rewrite (proj2 (Z.ltb_ge _ _) H1). ptr_norm.
  rewrite nsqpp_bswap32_string by lia. lua_run.
  fold size.
  rewrite (proj2 (Z.ltb_lt _ _) H2). lua_run.
  rewrite (to_lua_Integer_small NSQPP_FRAME_PARTIAL) by frame_lia.
  reflexivity.
Qed.

(** Both length checks passed and the 8 bytes of the header are there:
    the decoder is at its [switch]. *)
Ltac at_switch :=
  unfold decodeframe, call, decodeframe_lua; lua_run; fold (buf_len buf);
  rewrite (proj2 (Z.ltb_ge (buf_len buf) 4)) by lia; ptr_norm;
  rewrite nsqpp_bswap32_string by lia; lua_run; fold (frame_size buf);
  replace (to_size_t (buf_len buf - 4) <? to_size_t (frame_size buf))
    with false
    by (symmetry; apply Z.ltb_ge; pose proof frame_size_range;
        rewrite !to_size_t_small by frame_lia; lia);
  ptr_norm; rewrite nsqpp_bswap32_string by lia; lua_run;
  fold (frame_type buf).

Ltac at_message :=
  change (NSQPP_FRAME_MESSAGE =? NSQPP_FRAME_RESPONSE) with false;
  change (NSQPP_FRAME_MESSAGE =? NSQPP_FRAME_ERROR) with false;
  change (NSQPP_FRAME_MESSAGE =? NSQPP_FRAME_MESSAGE) with true;
  lua_run.

Lemma int_add_fits a b :
  INT_MIN <= a + b <= INT_MAX -> int_add a b = Done (a + b).
Proof.
  intros H. unfold int_add.
  rewrite (proj2 (in_int_true (a + b))) by frame_lia. reflexivity.
Qed.

Lemma int_sub_fits a b :
  INT_MIN <= a - b <= INT_MAX -> int_sub a b = Done (a - b).
Proof.
  intros H. unfold int_sub.
  rewrite (proj2 (in_int_true (a - b))) by frame_lia. reflexivity.
Qed.

(** A Response or Error frame that holds at least its 4 type bytes. *)
Lemma decodeframe_reply :
  lua_string buf ->
  4 <= size -> size + 4 <= len -> size + 4 <= INT_MAX ->
  frame_type buf = NSQPP_FRAME_RESPONSE \/ frame_type buf = NSQPP_FRAME_ERROR ->
  decodeframe buf
  = Done [LInteger (frame_type buf); LInteger (size + 4);
          LString (sub_bytes buf 8 (size - 4))].
Proof.
  intros Hb Hs Hl Hm Ht. at_switch.
  rewrite int_add_fits by frame_lia. lua_run.
  replace ((frame_type buf =? NSQPP_FRAME_RESPONSE)
           || (frame_type buf =? NSQPP_FRAME_ERROR)) with true
    by (symmetry; apply orb_true_iff; rewrite !Z.eqb_eq; exact Ht).
  rewrite int_sub_fits by frame_lia. lua_run. ptr_norm.
  unfold lua_pushlstring.
  rewrite to_size_t_small by frame_lia.
  rewrite load_string by lia. lua_run.
  pose proof frame_size_range.
  rewrite (to_lua_Integer_small (frame_type buf))
    by (destruct Ht as [-> | ->]; frame_lia).
  rewrite (to_lua_Integer_small (size + 4)) by frame_lia.
  reflexivity.
Qed.

(** A frame of an unknown type. *)
Lemma decodeframe_unknown :
  lua_string buf ->
  0 <= size -> size + 4 <= len -> 8 <= len -> size + 4 <= INT_MAX ->
  frame_type buf <> NSQPP_FRAME_RESPONSE ->
  frame_type buf <> NSQPP_FRAME_ERROR ->
  frame_type buf <> NSQPP_FRAME_MESSAGE ->
  decodeframe buf = Done [LInteger NSQPP_FRAME_INVAL; LInteger (size + 4)].
Proof.
  intros Hb Hs Hl H8 Hm T0 T1 T2. at_switch.
  rewrite int_add_fits by frame_lia. lua_run.
  rewrite (proj2 (Z.eqb_neq _ _) T0), (proj2 (Z.eqb_neq _ _) T1),
    (proj2 (Z.eqb_neq _ _) T2).
  lua_run.
  pose proof frame_size_range.
  rewrite (to_lua_Integer_small (size + 4)) by frame_lia.
  rewrite (to_lua_Integer_small NSQPP_FRAME_INVAL) by frame_lia.
  reflexivity.
Qed.

(** A Message frame that holds at least its fixed fields. *)
Lemma decodeframe_message :
  lua_string buf ->
  30 <= size -> size + 4 <= len -> size + 4 <= INT_MAX ->
  frame_type buf = NSQPP_FRAME_MESSAGE ->
  decodeframe buf
  = Done [LInteger NSQPP_FRAME_MESSAGE; LInteger (size + 4);
          LString (sub_bytes buf 34 (size - 30));
          LString (sub_bytes buf 18 16);
          LInteger (to_lua_Integer (be_unsigned (sub_bytes buf 8 8)));
          LInteger (be_unsigned (sub_bytes buf 10 2))].
Proof.
  intros Hb Hs Hl Hm Ht. at_switch. rewrite Ht.
  rewrite int_add_fits by frame_lia. lua_run. at_message.
  rewrite int_sub_fits by frame_lia. lua_run. ptr_norm.
  unfold lua_pushlstring.
  rewrite (to_size_t_small (size - 30)) by frame_lia.
  rewrite (to_size_t_small 16) by frame_lia.
  rewrite !load_string by lia. lua_run.
  rewrite nsqpp_bswap64_string by lia. lua_run.
  rewrite nsqpp_bswap16_string by lia. lua_run.
  pose proof frame_size_range.
  pose proof (be_unsigned_range (sub_bytes buf 10 2)) as Ha.
  rewrite length_sub_bytes in Ha by lia. change (256 ^ 2) with 65536 in Ha.
  rewrite (to_lua_Integer_small NSQPP_FRAME_MESSAGE) by frame_lia.
  rewrite (to_lua_Integer_small (size + 4)) by frame_lia.
  rewrite (to_lua_Integer_small (be_unsigned (sub_bytes buf 10 2)))
    by frame_lia.
  reflexivity.
Qed.

(** A complete frame whose size is below the fixed part of its type: the
    length handed to [lua_pushlstring] is negative, and no values come
    back. *)
Lemma decodeframe_undersized :
  lua_string buf ->
  0 <= size -> size + 4 <= len -> 8 <= len ->
  ((frame_type buf = NSQPP_FRAME_RESPONSE \/ frame_type buf = NSQPP_FRAME_ERROR)
   /\ size < 4)
  \/ (frame_type buf = NSQPP_FRAME_MESSAGE /\ size < 30) ->
  decodeframe buf = Fault.
Proof.
  intros Hb Hs Hl H8 Hc. at_switch.
  pose proof frame_size_range.
  rewrite int_add_fits by frame_lia. lua_run.
  destruct Hc as [[Ht Hlt] | [Ht Hlt]].
  - replace ((frame_type buf =? NSQPP_FRAME_RESPONSE)
             || (frame_type buf =? NSQPP_FRAME_ERROR)) with true
      by (symmetry; apply orb_true_iff; rewrite !Z.eqb_eq; exact Ht).
    rewrite int_sub_fits by frame_lia. lua_run. ptr_norm.
    unfold lua_pushlstring.
    rewrite to_size_t_neg by frame_lia.
    rewrite load_string_outside by frame_lia. reflexivity.
  - rewrite Ht. at_message.
    rewrite int_sub_fits by frame_lia. lua_run. ptr_norm.
    unfold lua_pushlstring.
    rewrite to_size_t_neg by frame_lia.
    rewrite load_string_outside by frame_lia. reflexivity.
Qed.

(** The payload is incomplete: the answer is the exact shortfall. *)
Lemma decodeframe_shortfall :
  4 <= len -> len - 4 < size ->
  decodeframe buf
  = Done [LInteger NSQPP_FRAME_PARTIAL; LInteger (size - (len - 4))].
Proof.
  intros H4 Hk. pose proof frame_size_range.
  rewrite decodeframe_partial; try lia.
  - rewrite (to_size_t_small size), (to_size_t_small (len - 4)) by frame_lia.
    rewrite to_size_t_small, to_lua_Integer_small by frame_lia.
    reflexivity.
  - rewrite !to_size_t_small by frame_lia. lia.
Qed.

Lemma to_lua_Integer_wrap z : to_lua_Integer (z + 2 ^ 64) = to_lua_Integer z.
Proof.
  unfold to_lua_Integer, to_int64, wrap_signed.
  replace (z + 2 ^ 64 + 2 ^ (64 - 1)) with (z + 2 ^ (64 - 1) + 1 * 2 ^ 64)
    by lia.
  rewrite Z.mod_add by frame_lia. reflexivity.
Qed.

(** A negative size compares as a huge unsigned one; the shortfall pushed
    is the 64-bit difference. *)
Lemma decodeframe_negative :
  lua_string buf -> 4 <= len -> size < 0 ->
  decodeframe buf
  = Done [LInteger NSQPP_FRAME_PARTIAL;
          LInteger (to_lua_Integer (size - (len - 4)))].
Proof.
  intros Hb H4 Hn. pose proof frame_size_range.
  rewrite decodeframe_partial; try lia.
  - rewrite (to_size_t_neg size), (to_size_t_small (len - 4)) by frame_lia.
    rewrite to_size_t_small by frame_lia.
    replace (size + 2 ^ 64 - (len - 4)) with (size - (len - 4) + 2 ^ 64)
      by lia.
    rewrite to_lua_Integer_wrap. reflexivity.
  - rewrite to_size_t_small, to_size_t_neg by frame_lia. frame_lia.
Qed.

(** Past its two length checks the decoder never gives the partial
    answer: what it returns starts with a frame type or the invalid-frame
    code, followed by the size plus 4. *)
Lemma decodeframe_past_checks vals :
  4 <= len -> to_size_t size <= to_size_t (len - 4) ->
  decodeframe buf = Done vals ->
  exists kind rest,
    vals = LInteger kind :: LInteger (size + 4) :: rest
    /\ kind <> NSQPP_FRAME_PARTIAL.
Proof.
  intros H4 Hp. unfold decodeframe, call, decodeframe_lua. lua_run.
  fold len. rewrite (proj2 (Z.ltb_ge len 4)) by lia. ptr_norm.
  rewrite nsqpp_bswap32_string by lia. lua_run. fold size.
  rewrite (proj2 (Z.ltb_ge _ _) Hp). ptr_norm.
  destruct (nsqpp_bswap32 _) as [ty|]; lua_run; [|discriminate].
  unfold int_add. destruct (in_int (size + 4)) eqn:Hfit; lua_run;
    [|discriminate].
  apply in_int_true in Hfit.
  rewrite (to_lua_Integer_small (size + 4)) by frame_lia.
  pose proof (to_int32_range ty) as Hty.
  rewrite (to_lua_Integer_small (to_int32 ty)) by frame_lia.
  destruct ((to_int32 ty =? NSQPP_FRAME_RESPONSE)
            || (to_int32 ty =? NSQPP_FRAME_ERROR)) eqn:Hreply.
  { apply orb_true_iff in Hreply. rewrite !Z.eqb_eq in Hreply.
    destruct (int_sub size 4) as [n|]; lua_run; [|discriminate].
    unfold lua_pushlstring.
    destruct (load_bytes _ _) as [body|]; lua_run; [|discriminate].
    intros Hrun. injection Hrun as <-.
    eexists _, _. split; [reflexivity|]. destruct Hreply; frame_lia. }
  destruct (to_int32 ty =? NSQPP_FRAME_MESSAGE) eqn:Hmsg.
  { apply Z.eqb_eq in Hmsg.
    destruct (int_sub size 30) as [n|]; lua_run; [|discriminate].
    unfold lua_pushlstring.
    destruct (load_bytes _ (to_size_t n)) as [body|]; lua_run;
      [|discriminate].
    destruct (load_bytes _ _) as [id|]; lua_run; [|discriminate].
    destruct (nsqpp_bswap64 _) as [ns|]; lua_run; [|discriminate].
    destruct (nsqpp_bswap16 _) as [att|]; lua_run; [|discriminate].
    intros Hrun. injection Hrun as <-.
    eexists _, _. split; [reflexivity|]. frame_lia. }
  lua_run. intros Hrun. injection Hrun as <-.
  eexists _, _. split; [reflexivity|].
  rewrite (to_lua_Integer_small NSQPP_FRAME_INVAL) by frame_lia. frame_lia.
Qed.


End Decoder.

Lemma sub_bytes_app buf ext off n :
  0 <= off -> 0 <= n -> off + n <= buf_len buf ->
  sub_bytes (buf ++ ext) off n = sub_bytes buf off n.
Proof.
  unfold buf_len, sub_bytes. intros Ho Hn Hl.
  rewrite skipn_app, firstn_app.
  replace (Z.to_nat n - length (skipn (Z.to_nat off) buf))%nat with 0%nat
    by (rewrite length_skipn; lia).
  cbn [firstn]. apply app_nil_r.
Qed.

(** Once the bytes asked for have arrived the decoder does not ask
    again. *)
Lemma decodeframe_retry_not_partial buf ext need :
  4 <= buf_len buf -> buf_len buf - 4 < frame_size buf ->
  buf_len ext = frame_size buf - (buf_len buf - 4) ->
  decodeframe (buf ++ ext)
  <> Done [LInteger NSQPP_FRAME_PARTIAL; LInteger need].
Proof.
  intros H4 Hk He Hrun.
  assert (Hs : frame_size (buf ++ ext) = frame_size buf)
    by (unfold frame_size; rewrite sub_bytes_app by lia; reflexivity).
  assert (Hl : buf_len (buf ++ ext) = frame_size buf + 4)
    by (unfold buf_len in *; rewrite length_app; lia).
  pose proof (frame_size_range buf) as Hr.
  apply decodeframe_past_checks in Hrun.
  - destruct Hrun as (k & r & E & Hk'). congruence.
  - lia.
  - rewrite Hs, Hl. rewrite !to_size_t_small by frame_lia. lia.
Qed.

(** ** Running the length-prefix encoder *)

Lemma load_bytes_all bs :
  load_bytes (Ptr bs 0) (Z.of_nat (length bs)) = Done bs.
Proof.
  unfold load_bytes. cbn [object offset].
  replace ((0 <=? 0) && (0 <=? Z.of_nat (length bs))
           && (0 + Z.of_nat (length bs) <=? Z.of_nat (length bs))) with true
    by (symmetry; rewrite !andb_true_iff, !Z.leb_le; lia).
  rewrite Nat2Z.id. cbn [Z.to_nat skipn]. rewrite firstn_all. reflexivity.
Qed.

Lemma htonl_range x : 0 <= htonl x < 2 ^ 32.
Proof.
  unfold htonl.
  pose proof (le_unsigned_range (rev (le_bytes 4 x))) as H.
  rewrite length_rev, length_le_bytes in H. exact H.
Qed.

(** The union initialised with [htonl(x)] holds the bytes of [x], most
    significant first. *)
Lemma htonl_storage x : ptr32 (to_int32 (htonl x)) = rev (le_bytes 4 x).
Proof.
  unfold ptr32.
  rewrite to_uint32_int32, to_uint32_small by apply htonl_range.
  unfold htonl.
  rewrite <- (length_le_bytes 4 x) at 1. rewrite <- length_rev.
  apply le_bytes_unsigned.
Qed.

Lemma htonl_lua_run n :
  htonl_bytes n = Done [LString (rev (le_bytes 4 (to_uint32 n)))].
Proof.
  unfold htonl_bytes, call, htonl_lua.
  cbn [bind luaL_checkinteger nth_error pred].
  rewrite htonl_storage. unfold lua_pushlstring.
  rewrite (to_size_t_small 4) by frame_lia.
  change 4 with (Z.of_nat (length (rev (le_bytes 4 (to_uint32 n))))) at 1.
  rewrite load_bytes_all. reflexivity.
Qed.

Lemma be_unsigned_storage x : be_unsigned (rev (le_bytes 4 x)) = to_uint32 x.
Proof.
  rewrite <- le_unsigned_rev, rev_involutive. apply le_unsigned_bytes.
Qed.

(** The 32-bit reader applied to a 4-byte Lua string. *)
Lemma nsqpp_bswap32_of_bytes x :
  nsqpp_bswap32 (string_ptr (rev (le_bytes 4 x))) = Done (to_uint32 x).
Proof.
  unfold string_ptr.
  rewrite nsqpp_bswap32_string
    by (unfold buf_len; rewrite ?length_rev, ?length_le_bytes; lia).
  f_equal. unfold sub_bytes. cbn [Z.to_nat skipn].
  change (Pos.to_nat 4) with (length (rev (le_bytes 4 x))).
  rewrite firstn_all, <- le_unsigned_rev, rev_involutive.
  apply le_unsigned_bytes.
Qed.

(** ** The frame decoder: properties *)

(** C1 (the code departs from it).  A Message frame carries its attempt
    count in bytes 16 and 17, after the 8 header bytes and the 8 timestamp
    bytes; the decoder reads it from bytes 10 and 11, inside the timestamp.
    On [message_frame] (attempts 1) every other field comes back as the
    claim says (consumed 39 = 34 + 5, the body, the id byte for byte, the
    timestamp) and the attempt count comes back as 4621 = 0x120d. *)
Theorem C1_attempts_read_at_offset_10 :
  decodeframe message_frame
  = Done [LInteger NSQPP_FRAME_MESSAGE; LInteger 39;
          LString message_body; LString message_id;
          LInteger 1500000000000000000; LInteger 4621]
  /\ frame_size message_frame = 30 + 5
  /\ sub_bytes message_frame 34 5 = message_body
  /\ sub_bytes message_frame 18 16 = message_id
  /\ be_unsigned (sub_bytes message_frame 8 8) = 1500000000000000000
  /\ be_unsigned (sub_bytes message_frame 16 2) = 1
  /\ be_unsigned (sub_bytes message_frame 10 2) = 4621.
Proof.
  split.
  - rewrite decodeframe_message; vm_compute; (reflexivity || discriminate).
  - repeat split; vm_compute; reflexivity.
Qed.

(** C2 (the code departs from it).  A complete frame whose size is below
    the fixed part of its type is not answered with the invalid-frame
    code: the decoder hands a negative length to [lua_pushlstring] and
    returns nothing.  Size 2 read as a Response, size 3 read as an Error,
    size 8 read as a Message. *)
Theorem C2_undersized_frame_faults :
  decodeframe undersized_response = Fault
  /\ decodeframe undersized_error = Fault
  /\ forall a b c d, decodeframe (message_header8 ++ [a; b; c; d]) = Fault.
Proof.
  split; [|split].
  - vm_compute. reflexivity.
  - vm_compute. reflexivity.
  - intros a b c d. apply decodeframe_undersized.
    + vm_compute. reflexivity.
    + vm_compute. discriminate.
    + vm_compute. discriminate.
    + vm_compute. discriminate.
    + right. split; vm_compute; reflexivity.
Qed.

(** C3, as the code has it.  A complete frame (size not negative, the
    buffer holds its 4+size bytes and the 8 header bytes, size+4 within
    [int]) whose type is none of 0, 1, 2 is answered with exactly two
    values: the invalid-frame code -2, which takes the place of the decoded
    type, and consumed = size + 4.  The answer is never the partial one. *)
Theorem C3_unknown_type_invalid (buf : list byte) :
  lua_string buf ->
  0 <= frame_size buf ->
  frame_size buf + 4 <= buf_len buf ->
  8 <= buf_len buf ->
  frame_size buf + 4 <= INT_MAX ->
  frame_type buf <> NSQPP_FRAME_RESPONSE ->
  frame_type buf <> NSQPP_FRAME_ERROR ->
  frame_type buf <> NSQPP_FRAME_MESSAGE ->
  decodeframe buf
  = Done [LInteger NSQPP_FRAME_INVAL; LInteger (frame_size buf + 4)]
  /\ forall need,
      decodeframe buf <> Done [LInteger NSQPP_FRAME_PARTIAL; LInteger need].
Proof.
  intros Hb Hs Hl H8 Hm T0 T1 T2.
  rewrite decodeframe_unknown by assumption.
  split; [reflexivity|]. intros need. discriminate.
Qed.

Lemma C3_unknown_type_invalid_witness :
  (lua_string unknown_frame
   /\ 0 <= frame_size unknown_frame
   /\ frame_size unknown_frame + 4 <= buf_len unknown_frame
   /\ 8 <= buf_len unknown_frame
   /\ frame_size unknown_frame + 4 <= INT_MAX
   /\ frame_type unknown_frame = 99)
  /\ decodeframe unknown_frame = Done [LInteger NSQPP_FRAME_INVAL; LInteger 8].
Proof.
  split.
  - repeat split; vm_compute; (reflexivity || discriminate).
  - apply (C3_unknown_type_invalid unknown_frame);
      vm_compute; (reflexivity || discriminate).
Defined.

(** C3 as stated fails: on [unknown_frame] (type 99) the two values
    returned are -2 and 8, and the type 99 is not among them. *)
Lemma C3_type_code_not_returned :
  frame_type unknown_frame = 99
  /\ decodeframe unknown_frame = Done [LInteger NSQPP_FRAME_INVAL; LInteger 8]
  /\ forall vals,
      decodeframe unknown_frame = Done vals -> ~ In (LInteger 99) vals.
Proof.
  split; [vm_compute; reflexivity|].
  split; [vm_compute; reflexivity|].
  intros vals H. vm_compute in H. injection H as <-.
  intros [E | [E | []]]; discriminate E.
Qed.

(** C4.  A buffer shorter than 4 bytes, the empty one included, is
    answered with the partial code and need = 4 - len. *)
Theorem C4_short_buffer_partial (buf : list byte) :
  buf_len buf < 4 ->
  decodeframe buf
  = Done [LInteger NSQPP_FRAME_PARTIAL; LInteger (4 - buf_len buf)].
Proof. apply decodeframe_short. Qed.

Lemma C4_short_buffer_partial_witness :
  buf_len [] < 4
  /\ decodeframe [] = Done [LInteger NSQPP_FRAME_PARTIAL; LInteger 4].
Proof.
  split.
  - vm_compute. reflexivity.
  - apply (C4_short_buffer_partial []). vm_compute. reflexivity.
Defined.

(** C5 (the code departs from its second half).  With 4+k bytes, size not
    negative and k < size, the answer is the partial code with the exact
    shortfall size - k ([decodeframe_shortfall]); here size 8, k 4, need 4.
    Decoding again after exactly 4 more bytes, whatever they are, returns
    nothing: the frame is a Message of size 8 < 30, and the negative body
    length is handed to [lua_pushlstring]. *)
Theorem C5_retry_after_need_faults :
  buf_len message_header8 = 4 + 4
  /\ frame_size message_header8 = 8
  /\ decodeframe message_header8
     = Done [LInteger NSQPP_FRAME_PARTIAL; LInteger (8 - 4)]
  /\ forall a b c d, decodeframe (message_header8 ++ [a; b; c; d]) = Fault.
Proof.
  split; [reflexivity|]. split; [vm_compute; reflexivity|]. split.
  - rewrite decodeframe_shortfall; vm_compute; (reflexivity || discriminate).
  - intros a b c d. apply decodeframe_undersized.
    + vm_compute. reflexivity.
    + vm_compute. discriminate.
    + vm_compute. discriminate.
    + vm_compute. discriminate.
    + right. split; vm_compute; reflexivity.
Qed.



(** C10.  A buffer of at least 4 bytes whose size field is negative is
    always answered with the partial code, never with a frame and never
    with the invalid-frame code: converted to [size_t] the negative size is
    larger than any payload length, so the second length check sends the
    decoder to its need-more-bytes branch.  The need pushed is the 64-bit
    difference size - (len - 4). *)
Theorem C10_negative_size_partial (buf : list byte) :
  lua_string buf ->
  4 <= buf_len buf ->
  frame_size buf < 0 ->
  to_size_t (buf_len buf - 4) < to_size_t (frame_size buf)
  /\ decodeframe buf
     = Done [LInteger NSQPP_FRAME_PARTIAL;
             LInteger (to_lua_Integer (frame_size buf - (buf_len buf - 4)))].
Proof.
  intros Hb H4 Hn. split.
  - pose proof (frame_size_range buf). pose proof (buf_len_nonneg buf).
    rewrite to_size_t_small, to_size_t_neg by frame_lia. frame_lia.
  - apply decodeframe_negative; assumption.
Qed.

Lemma C10_negative_size_partial_witness :
  (lua_string negative_frame
   /\ 4 <= buf_len negative_frame
   /\ frame_size negative_frame = -1)
  /\ decodeframe negative_frame
     = Done [LInteger NSQPP_FRAME_PARTIAL; LInteger (-5)].
Proof.
  split.
  - repeat split; vm_compute; (reflexivity || discriminate).
  - apply (C10_negative_size_partial negative_frame);
      vm_compute; (reflexivity || discriminate).
Defined.

(** C8, as the code has it.  A Response frame -- the buffer holds at least
    4+size bytes, size = 4+n, type 0, size+4 within [int] -- is answered
    with the type 0, consumed = 8+n (that is size + 4) and the body, bytes
    [8, 4+size), n of them. *)
Theorem C8_response_frame (buf : list byte) (n : Z) :
  lua_string buf ->
  0 <= n ->
  frame_size buf = 4 + n ->
  frame_type buf = NSQPP_FRAME_RESPONSE ->
  4 + frame_size buf <= buf_len buf ->
  frame_size buf + 4 <= INT_MAX ->
  decodeframe buf
  = Done [LInteger NSQPP_FRAME_RESPONSE; LInteger (8 + n);
          LString (sub_bytes buf 8 n)]
  /\ buf_len (sub_bytes buf 8 n) = n.
Proof.
  intros Hb Hn Hs Ht Hl Hm. split.
  - rewrite decodeframe_reply by (assumption || lia || (left; exact Ht)).
    rewrite Ht, Hs.
    replace (4 + n + 4) with (8 + n) by lia.
    replace (4 + n - 4) with n by lia.
    reflexivity.
  - apply length_sub_bytes; lia.
Qed.

(** The scenario of the specification: "OK" in a Response frame. *)
Lemma C8_response_frame_witness :
  (lua_string ok_frame
   /\ 0 <= 2
   /\ frame_size ok_frame = 4 + 2
   /\ frame_type ok_frame = NSQPP_FRAME_RESPONSE
   /\ 4 + frame_size ok_frame <= buf_len ok_frame
   /\ frame_size ok_frame + 4 <= INT_MAX)
  /\ decodeframe ok_frame
     = Done [LInteger NSQPP_FRAME_RESPONSE; LInteger 10; LString [x4f; x4b]].
Proof.
  split.
  - repeat split; vm_compute; (reflexivity || discriminate).
  - apply (C8_response_frame ok_frame 2);
      vm_compute; (reflexivity || discriminate).
Defined.

(** C8 as stated fails on its own scenario: [ok_frame] has size 6 = 4 + 2
    and type 0, and consumed is 10, not 4 + 2. *)
Lemma C8_consumed_is_not_4_plus_n :
  frame_size ok_frame = 4 + 2
  /\ frame_type ok_frame = NSQPP_FRAME_RESPONSE
  /\ 4 + frame_size ok_frame <= buf_len ok_frame
  /\ decodeframe ok_frame
     = Done [LInteger NSQPP_FRAME_RESPONSE; LInteger 10; LString [x4f; x4b]]
  /\ ~ decodeframe ok_frame
       = Done [LInteger NSQPP_FRAME_RESPONSE; LInteger (4 + 2);
               LString [x4f; x4b]].
Proof.
  repeat split; vm_compute; (reflexivity || discriminate).
Qed.

(** ** The length-prefix encoder: properties *)

(** C6.  For a count in [0, 2^31) the encoder returns one string of 4
    bytes, and the 32-bit reader applied to that string returns the
    count. *)
Theorem C6_length_prefix_roundtrip (count : Z) :
  0 <= count < 2 ^ 31 ->
  exists bs : list byte,
    htonl_bytes count = Done [LString bs]
    /\ length bs = 4%nat
    /\ be_unsigned bs = count
    /\ nsqpp_bswap32 (string_ptr bs) = Done count.
Proof.
  intros Hc. exists (rev (le_bytes 4 (to_uint32 count))).
  split; [apply htonl_lua_run|].
  split; [rewrite length_rev; apply length_le_bytes|].
  rewrite nsqpp_bswap32_of_bytes, be_unsigned_storage.
  rewrite (to_uint32_small count) by frame_lia.
  rewrite (to_uint32_small count) by frame_lia.
  split; reflexivity.
Qed.

Lemma C6_length_prefix_roundtrip_witness :
  0 <= 6 < 2 ^ 31
  /\ exists bs : list byte,
      htonl_bytes 6 = Done [LString bs]
      /\ length bs = 4%nat
      /\ be_unsigned bs = 6
      /\ nsqpp_bswap32 (string_ptr bs) = Done 6.
Proof.
  split.
  - lia.
  - apply (C6_length_prefix_roundtrip 6). lia.
Defined.

(** C7, as the code has it.  The encoder has no error path: every integer,
    a negative one or one beyond 32 bits too, is answered with one string
    of 4 bytes, the big-endian form of the input modulo 2^32. *)
Theorem C7_encoder_wraps (n : Z) :
  exists bs : list byte,
    htonl_bytes n = Done [LString bs]
    /\ length bs = 4%nat
    /\ be_unsigned bs = n mod 2 ^ 32
    /\ nsqpp_bswap32 (string_ptr bs) = Done (n mod 2 ^ 32).
Proof.
  exists (rev (le_bytes 4 (to_uint32 n))).
  split; [apply htonl_lua_run|].
  split; [rewrite length_rev; apply length_le_bytes|].
  rewrite nsqpp_bswap32_of_bytes, be_unsigned_storage.
  assert (E : to_uint32 (to_uint32 n) = n mod 2 ^ 32)
    by (unfold to_uint32, wrap_unsigned; apply Z.mod_mod; frame_lia).
  rewrite E. split; reflexivity.
Qed.

(** C7 as stated fails: -1 and 2^32 + 6 are encoded without any error, as
    ff ff ff ff and as 00 00 00 06 (the prefix of the count 6). *)
Lemma C7_out_of_range_is_encoded :
  htonl_bytes (-1) = Done [LString [xff; xff; xff; xff]]
  /\ htonl_bytes (2 ^ 32 + 6) = Done [LString [x00; x00; x00; x06]]
  /\ htonl_bytes 6 = Done [LString [x00; x00; x00; x06]].
Proof. repeat split; vm_compute; reflexivity. Qed.


(** ** The decoder, read backwards *)

Lemma load_bytes_inv p n bs :
  load_bytes p n = Done bs ->
  0 <= offset p /\ 0 <= n /\ offset p + n <= Z.of_nat (length (object p))
  /\ Z.of_nat (length bs) = n.
Proof.
  unfold load_bytes.
  destruct ((0 <=? offset p) && (0 <=? n)
            && (offset p + n <=? Z.of_nat (length (object p)))) eqn:E;
    [|discriminate].
  rewrite !andb_true_iff, !Z.leb_le in E. destruct E as [[Ho Hn] Hl].
  intros H. injection H as <-.
  rewrite length_firstn, length_skipn. lia.
Qed.

Lemma nsqpp_bswap16_range p v : nsqpp_bswap16 p = Done v -> 0 <= v < 2 ^ 16.
Proof.
  unfold nsqpp_bswap16.
  destruct (peek p 1); [|discriminate]. destruct (peek p 0); [|discriminate].
  cbn [rbind]. intros H. injection H as <-.
  unfold to_uint16, wrap_unsigned. apply Z.mod_pos_bound. lia.
Qed.

Section Inversion.

Variable buf : list byte.

Local Notation "'len'" := (buf_len buf).
Local Notation "'size'" := (frame_size buf).
Local Notation "'mem'" := (buf ++ [x00]).

(** Every way through the [switch] that returns values. *)
Lemma decodeframe_switch_inv vals :
  4 <= len -> to_size_t size <= to_size_t (len - 4) ->
  decodeframe buf = Done vals ->
  exists ty,
    nsqpp_bswap32 (Ptr mem 4) = Done ty
    /\ INT_MIN <= size + 4 <= INT_MAX
    /\ ((exists body,
          (to_int32 ty = NSQPP_FRAME_RESPONSE
           \/ to_int32 ty = NSQPP_FRAME_ERROR)
          /\ INT_MIN <= size - 4
          /\ load_bytes (Ptr mem 8) (to_size_t (size - 4)) = Done body
          /\ vals = [LInteger (to_int32 ty); LInteger (size + 4);
                     LString body])
        \/ (exists body id ns att,
              to_int32 ty = NSQPP_FRAME_MESSAGE
              /\ INT_MIN <= size - 30
              /\ load_bytes (Ptr mem 34) (to_size_t (size - 30)) = Done body
              /\ load_bytes (Ptr mem 18) (to_size_t 16) = Done id
              /\ nsqpp_bswap64 (Ptr mem 8) = Done ns
              /\ nsqpp_bswap16 (Ptr mem 10) = Done att
              /\ vals = [LInteger NSQPP_FRAME_MESSAGE; LInteger (size + 4);
                         LString body; LString id;
                         LInteger (to_lua_Integer ns); LInteger att])
        \/ (to_int32 ty <> NSQPP_FRAME_RESPONSE
            /\ to_int32 ty <> NSQPP_FRAME_ERROR
            /\ to_int32 ty <> NSQPP_FRAME_MESSAGE
            /\ vals = [LInteger NSQPP_FRAME_INVAL; LInteger (size + 4)])).
Proof.
  intros H4 Hp. unfold decodeframe, call, decodeframe_lua. lua_run.
  fold len. rewrite (proj2 (Z.ltb_ge len 4)) by lia. ptr_norm.
  rewrite nsqpp_bswap32_string by lia. lua_run. fold size.
  rewrite (proj2 (Z.ltb_ge _ _) Hp). ptr_norm.
  destruct (nsqpp_bswap32 (Ptr mem 4)) as [ty|]; lua_run; [|discriminate].
  unfold int_add. destruct (in_int (size + 4)) eqn:Hfit; lua_run;
    [|discriminate].
  apply in_int_true in Hfit.
  rewrite (to_lua_Integer_small (size + 4)) by frame_lia.
  pose proof (to_int32_range ty) as Hty.
  rewrite (to_lua_Integer_small (to_int32 ty)) by frame_lia.
  destruct (to_int32 ty =? NSQPP_FRAME_RESPONSE) eqn:T0;
    [|destruct (to_int32 ty =? NSQPP_FRAME_ERROR) eqn:T1]; cbn [orb].
  1,2: unfold int_sub; destruct (in_int (size - 4)) eqn:Hsub; lua_run;
    [|discriminate]; apply in_int_true in Hsub;
    unfold lua_pushlstring;
    destruct (load_bytes (Ptr mem 8) _) as [body|] eqn:Hload; lua_run;
    [|discriminate];
    intros Hrun; injection Hrun as <-;
    exists ty; split; [reflexivity|]; split; [frame_lia|];
    left; exists body;
    rewrite ?Z.eqb_eq in *; repeat split; auto; frame_lia.
  destruct (to_int32 ty =? NSQPP_FRAME_MESSAGE) eqn:T2.
  - apply Z.eqb_eq in T2.
    unfold int_sub. destruct (in_int (size - 30)) eqn:Hsub; lua_run;
      [|discriminate].
    apply in_int_true in Hsub. unfold lua_pushlstring.
    destruct (load_bytes (Ptr mem 34) _) as [body|] eqn:Hbody; lua_run;
      [|discriminate].
    destruct (load_bytes (Ptr mem 18) _) as [id|] eqn:Hid; lua_run;
      [|discriminate].
    destruct (nsqpp_bswap64 (Ptr mem 8)) as [ns|] eqn:Hns; lua_run;
      [|discriminate].
    destruct (nsqpp_bswap16 (Ptr mem 10)) as [att|] eqn:Hatt; lua_run;
      [|discriminate].
    pose proof (nsqpp_bswap16_range _ _ Hatt) as Ha.
    rewrite (to_lua_Integer_small att) by frame_lia.
    intros Hrun. injection Hrun as <-.
    exists ty. split; [reflexivity|]. split; [frame_lia|].
    right. left. exists body, id, ns, att. rewrite T2.
    repeat split; auto; frame_lia.
  - apply Z.eqb_neq in T0, T1, T2. lua_run.
    rewrite (to_lua_Integer_small NSQPP_FRAME_INVAL) by frame_lia.
    intros Hrun. injection Hrun as <-.
    exists ty. split; [reflexivity|]. split; [frame_lia|].
    right. right. repeat split; auto.
Qed.


(** The four shapes of an answer. *)
Lemma decodeframe_shape vals :
  decodeframe buf = Done vals ->
  (exists need, vals = [LInteger NSQPP_FRAME_PARTIAL; LInteger need])
  \/ (exists consumed, vals = [LInteger NSQPP_FRAME_INVAL; LInteger consumed])
  \/ (exists kind consumed body,
        (kind = NSQPP_FRAME_RESPONSE \/ kind = NSQPP_FRAME_ERROR)
        /\ vals = [LInteger kind; LInteger consumed; LString body])
  \/ (exists consumed body id ns att,
        length id = 16%nat /\ 0 <= att < 2 ^ 16
        /\ vals = [LInteger NSQPP_FRAME_MESSAGE; LInteger consumed;
                   LString body; LString id; LInteger ns; LInteger att]).
Proof.
  intros Hrun.
  destruct (Z.lt_ge_cases len 4) as [Hlt | H4].
  { rewrite decodeframe_short in Hrun by exact Hlt.
    left. eexists. symmetry. injection Hrun as <-. reflexivity. }
  destruct (Z.lt_ge_cases (to_size_t (len - 4)) (to_size_t size)) as [Hp | Hp].
  { rewrite decodeframe_partial in Hrun by assumption.
    left. eexists. symmetry. injection Hrun as <-. reflexivity. }
  destruct (decodeframe_switch_inv _ H4 Hp Hrun)
    as (ty & _ & _ & [(body & Ht & _ & _ & ->)
                     | [(body & id & ns & att & _ & _ & _ & Hid & _ & Ha & ->)
                       | (_ & _ & _ & ->)]]).
  - right. right. left. exists (to_int32 ty), (size + 4), body. auto.
  - right. right. right. exists (size + 4), body, id, (to_lua_Integer ns), att.
    apply load_bytes_inv in Hid. apply nsqpp_bswap16_range in Ha.
    rewrite to_size_t_small in Hid by frame_lia.
    repeat split; first [lia | reflexivity].
  - right. left. eexists. reflexivity.
Qed.



(** [payload + 4] does not fit an [int]. *)
Lemma decodeframe_overflow :
  lua_string buf -> 8 <= len -> 0 <= size -> size + 4 <= len ->
  INT_MAX < size + 4 ->
  decodeframe buf = Fault.
Proof.
  intros Hb H8 Hs Hl Ho.
  destruct (decodeframe buf) as [vals|] eqn:Hrun; [|reflexivity].
  pose proof (frame_size_range buf) as Hr.
  apply decodeframe_switch_inv in Hrun.
  - destruct Hrun as (ty & _ & Hfit & _). frame_lia.
  - lia.
  - rewrite !to_size_t_small by frame_lia. lia.
Qed.


End Inversion.

Lemma frame_size_app buf ext :
  4 <= buf_len buf -> frame_size (buf ++ ext) = frame_size buf.
Proof.
  intros H. unfold frame_size. rewrite sub_bytes_app by lia. reflexivity.
Qed.

Lemma frame_type_app buf ext :
  8 <= buf_len buf -> frame_type (buf ++ ext) = frame_type buf.
Proof.
  intros H. unfold frame_type. rewrite sub_bytes_app by lia. reflexivity.
Qed.

Lemma buf_len_app buf ext : buf_len (buf ++ ext) = buf_len buf + buf_len ext.
Proof. unfold buf_len. rewrite length_app. lia. Qed.

(** What follows a complete frame in the buffer has no part in the
    answer. *)
Lemma decodeframe_prefix buf ext :
  lua_string (buf ++ ext) ->
  8 <= buf_len buf -> 0 <= frame_size buf ->
  frame_size buf + 4 <= buf_len buf ->
  decodeframe (buf ++ ext) = decodeframe buf.
Proof.
  intros Hb H8 Hs Hl.
  pose proof (buf_len_app buf ext) as Happ.
  pose proof (buf_len_nonneg ext) as Hext.
  assert (Hb' : lua_string buf) by (unfold lua_string in *; lia).
  assert (Es := frame_size_app buf ext ltac:(lia)).
  assert (Et := frame_type_app buf ext H8).
  destruct (Z.lt_ge_cases INT_MAX (frame_size buf + 4)) as [Ho | Ho].
  { rewrite !decodeframe_overflow; try reflexivity; try assumption;
      rewrite ?Es; lia. }
  destruct (Z.eq_dec (frame_type buf) NSQPP_FRAME_MESSAGE) as [T2 | T2].
  { destruct (Z.lt_ge_cases (frame_size buf) 30) as [Hlt | H30].
    - rewrite !decodeframe_undersized; try reflexivity; try assumption;
        rewrite ?Es, ?Et; try lia; right; split; assumption.
    - rewrite !decodeframe_message; try assumption;
        rewrite ?Es, ?Et; try lia; try assumption.
      rewrite !sub_bytes_app by lia. reflexivity. }
  destruct (Z.eq_dec (frame_type buf) NSQPP_FRAME_RESPONSE) as [T0 | T0];
    [|destruct (Z.eq_dec (frame_type buf) NSQPP_FRAME_ERROR) as [T1 | T1]].
  1,2: destruct (Z.lt_ge_cases (frame_size buf) 4) as [Hlt | H4];
    [ rewrite !decodeframe_undersized; try reflexivity; try assumption;
        rewrite ?Es, ?Et; try lia; left; split; auto
    | rewrite !decodeframe_reply; try assumption;
        rewrite ?Es, ?Et; try lia; auto;
      rewrite !sub_bytes_app by lia; reflexivity ].
  rewrite !decodeframe_unknown; try assumption; rewrite ?Es, ?Et; try lia;
    try assumption.
  reflexivity.
Qed.

(** ** Frames built with the encoder *)

Lemma sub_bytes_whole bs : sub_bytes bs 0 (buf_len bs) = bs.
Proof.
  unfold sub_bytes, buf_len. rewrite Nat2Z.id. cbn [Z.to_nat skipn].
  apply firstn_all.
Qed.

Lemma sub_bytes_skip p r off n :
  0 <= off -> sub_bytes (p ++ r) (buf_len p + off) n = sub_bytes r off n.
Proof.
  intros Ho. unfold sub_bytes, buf_len.
  replace (Z.to_nat (Z.of_nat (length p) + off))
    with (Z.to_nat off + length p)%nat by lia.
  rewrite <- skipn_skipn, skipn_app, skipn_all, Nat.sub_diag.
  reflexivity.
Qed.

(** What the encoder returns for [n], read back as a signed header
    field. *)
Lemma htonl_bytes_header n p :
  htonl_bytes n = Done [LString p] ->
  buf_len p = 4 /\ to_int32 (be_unsigned p) = to_int32 n.
Proof.
  rewrite htonl_lua_run. intros H.
  assert (Hp : p = rev (le_bytes 4 (to_uint32 n))) by congruence.
  subst p. clear H. split.
  - unfold buf_len. rewrite length_rev, length_le_bytes. reflexivity.
  - rewrite be_unsigned_storage, !to_int32_uint32. reflexivity.
Qed.

Lemma frame_of_parts p t body :
  buf_len p = 4 -> buf_len t = 4 ->
  frame_size (p ++ t ++ body) = to_int32 (be_unsigned p)
  /\ frame_type (p ++ t ++ body) = to_int32 (be_unsigned t)
  /\ sub_bytes (p ++ t ++ body) 8 (buf_len body) = body
  /\ buf_len (p ++ t ++ body) = 8 + buf_len body.
Proof.
  intros Hp Ht. unfold frame_size, frame_type. repeat split.
  - rewrite sub_bytes_app by lia. rewrite <- Hp. rewrite sub_bytes_whole.
    reflexivity.
  - replace 4 with (buf_len p + 0) at 1 by lia.
    rewrite sub_bytes_skip by lia. rewrite sub_bytes_app by lia.
    rewrite <- Ht. rewrite sub_bytes_whole. reflexivity.
  - replace 8 with (buf_len p + 4) by lia. rewrite sub_bytes_skip by lia.
    replace 4 with (buf_len t + 0) by lia. rewrite sub_bytes_skip by lia.
    apply sub_bytes_whole.
  - rewrite !buf_len_app. lia.
Qed.

(** ** The byte readers: properties *)

(** X1.  Pointed at 2 bytes of a Lua string, [nsqpp_bswap16] returns their
    big-endian value, a number in [0, 2^16). *)
Theorem X1_bswap16_big_endian (buf : list byte) (off : Z) :
  0 <= off -> off + 2 <= buf_len buf ->
  nsqpp_bswap16 (ptr_add (string_ptr buf) off)
  = Done (be_unsigned (sub_bytes buf off 2))
  /\ 0 <= be_unsigned (sub_bytes buf off 2) < 2 ^ 16.
Proof.
  intros Ho Hl. ptr_norm. split.
  - apply nsqpp_bswap16_string; assumption.
  - pose proof (be_unsigned_range (sub_bytes buf off 2)) as H.
    rewrite length_sub_bytes in H by lia. exact H.
Qed.

Lemma X1_bswap16_big_endian_witness :
  (0 <= 2 /\ 2 + 2 <= buf_len ok_frame)
  /\ nsqpp_bswap16 (ptr_add (string_ptr ok_frame) 2) = Done 6.
Proof.
  split; [split; vm_compute; discriminate|].
  apply (X1_bswap16_big_endian ok_frame 2); vm_compute; discriminate.
Defined.

(** X2.  Pointed at 4 bytes of a Lua string, [nsqpp_bswap32] returns their
    big-endian value, a number in [0, 2^32). *)
Theorem X2_bswap32_big_endian (buf : list byte) (off : Z) :
  0 <= off -> off + 4 <= buf_len buf ->
  nsqpp_bswap32 (ptr_add (string_ptr buf) off)
  = Done (be_unsigned (sub_bytes buf off 4))
  /\ 0 <= be_unsigned (sub_bytes buf off 4) < 2 ^ 32.
Proof.
  intros Ho Hl. ptr_norm. split.
  - apply nsqpp_bswap32_string; assumption.
  - pose proof (be_unsigned_range (sub_bytes buf off 4)) as H.
    rewrite length_sub_bytes in H by lia. exact H.
Qed.

Lemma X2_bswap32_big_endian_witness :
  (0 <= 4 /\ 4 + 4 <= buf_len unknown_frame)
  /\ nsqpp_bswap32 (ptr_add (string_ptr unknown_frame) 4) = Done 99.
Proof.
  split; [split; vm_compute; discriminate|].
  apply (X2_bswap32_big_endian unknown_frame 4); vm_compute; discriminate.
Defined.

(** X3.  Pointed at 8 bytes of a Lua string, [nsqpp_bswap64] returns their
    big-endian value, a number in [0, 2^64). *)
Theorem X3_bswap64_big_endian (buf : list byte) (off : Z) :
  0 <= off -> off + 8 <= buf_len buf ->
  nsqpp_bswap64 (ptr_add (string_ptr buf) off)
  = Done (be_unsigned (sub_bytes buf off 8))
  /\ 0 <= be_unsigned (sub_bytes buf off 8) < 2 ^ 64.
Proof.
  intros Ho Hl. ptr_norm. split.
  - apply nsqpp_bswap64_string; assumption.
  - pose proof (be_unsigned_range (sub_bytes buf off 8)) as H.
    rewrite length_sub_bytes in H by lia. exact H.
Qed.

Lemma X3_bswap64_big_endian_witness :
  (0 <= 8 /\ 8 + 8 <= buf_len late_message_frame)
  /\ nsqpp_bswap64 (ptr_add (string_ptr late_message_frame) 8)
     = Done 9223372036854775809.
Proof.
  split; [split; vm_compute; discriminate|].
  apply (X3_bswap64_big_endian late_message_frame 8); vm_compute; discriminate.
Defined.

(** ** The frame decoder: further properties *)

(** X4.  An Error frame -- the buffer holds at least 4+size bytes, size =
    4+n, type 1, size+4 within [int] -- is answered with the type 1,
    consumed = 8+n and the body, bytes [8, 4+size), n of them. *)
Theorem X4_error_frame (buf : list byte) (n : Z) :
  lua_string buf ->
  0 <= n ->
  frame_size buf = 4 + n ->
  frame_type buf = NSQPP_FRAME_ERROR ->
  4 + frame_size buf <= buf_len buf ->
  frame_size buf + 4 <= INT_MAX ->
  decodeframe buf
  = Done [LInteger NSQPP_FRAME_ERROR; LInteger (8 + n);
          LString (sub_bytes buf 8 n)]
  /\ buf_len (sub_bytes buf 8 n) = n.
Proof.
  intros Hb Hn Hs Ht Hl Hm. split.
  - rewrite decodeframe_reply by (assumption || lia || (right; exact Ht)).
    rewrite Ht, Hs.
    replace (4 + n + 4) with (8 + n) by lia.
    replace (4 + n - 4) with n by lia.
    reflexivity.
  - apply length_sub_bytes; lia.
Qed.

Lemma X4_error_frame_witness :
  (lua_string error_frame
   /\ 0 <= 1
   /\ frame_size error_frame = 4 + 1
   /\ frame_type error_frame = NSQPP_FRAME_ERROR
   /\ 4 + frame_size error_frame <= buf_len error_frame
   /\ frame_size error_frame + 4 <= INT_MAX)
  /\ decodeframe error_frame
     = Done [LInteger NSQPP_FRAME_ERROR; LInteger 9; LString [x45]].
Proof.
  split.
  - repeat split; vm_compute; (reflexivity || discriminate).
  - apply (X4_error_frame error_frame 1);
      vm_compute; (reflexivity || discriminate).
Defined.

(** X5.  A Message frame that holds its 30 fixed bytes (size >= 30, the
    buffer holds 4+size bytes, size+4 within [int]) is answered with six
    values: the type 2, consumed = size + 4, the body (bytes [34, 4+size),
    size - 30 of them), the message id (bytes [18, 34), unchanged), the
    timestamp (the 8 bytes at offset 8, big-endian, as a [lua_Integer]) and
    the 16-bit big-endian value of bytes 10 and 11. *)
Theorem X5_message_frame (buf : list byte) :
  lua_string buf ->
  30 <= frame_size buf ->
  frame_size buf + 4 <= buf_len buf ->
  frame_size buf + 4 <= INT_MAX ->
  frame_type buf = NSQPP_FRAME_MESSAGE ->
  decodeframe buf
  = Done [LInteger NSQPP_FRAME_MESSAGE; LInteger (frame_size buf + 4);
          LString (sub_bytes buf 34 (frame_size buf - 30));
          LString (sub_bytes buf 18 16);
          LInteger (to_lua_Integer (be_unsigned (sub_bytes buf 8 8)));
          LInteger (be_unsigned (sub_bytes buf 10 2))]
  /\ buf_len (sub_bytes buf 34 (frame_size buf - 30)) = frame_size buf - 30
  /\ buf_len (sub_bytes buf 18 16) = 16.
Proof.
  intros Hb Hs Hl Hm Ht. split; [apply decodeframe_message; assumption|].
  split; apply length_sub_bytes; lia.
Qed.

Lemma X5_message_frame_witness :
  (lua_string message_frame
   /\ 30 <= frame_size message_frame
   /\ frame_size message_frame + 4 <= buf_len message_frame
   /\ frame_size message_frame + 4 <= INT_MAX
   /\ frame_type message_frame = NSQPP_FRAME_MESSAGE)
  /\ decodeframe message_frame
     = Done [LInteger NSQPP_FRAME_MESSAGE; LInteger 39;
             LString message_body; LString message_id;
             LInteger 1500000000000000000; LInteger 4621].
Proof.
  split.
  - repeat split; vm_compute; (reflexivity || discriminate).
  - apply (X5_message_frame message_frame);
      vm_compute; (reflexivity || discriminate).
Defined.

(** X6.  The timestamp of a Message comes back as a signed 64-bit number:
    it is the big-endian value of the 8 bytes at offset 8 when that is
    below 2^63, and that value minus 2^64, a negative number, when the top
    bit of byte 8 is set. *)
Theorem X6_timestamp_is_signed (buf : list byte) :
  lua_string buf ->
  30 <= frame_size buf ->
  frame_size buf + 4 <= buf_len buf ->
  frame_size buf + 4 <= INT_MAX ->
  frame_type buf = NSQPP_FRAME_MESSAGE ->
  exists body id ns att,
    decodeframe buf
    = Done [LInteger NSQPP_FRAME_MESSAGE; LInteger (frame_size buf + 4);
            LString body; LString id; LInteger ns; LInteger att]
    /\ ns = (if be_unsigned (sub_bytes buf 8 8) <? 2 ^ 63
             then be_unsigned (sub_bytes buf 8 8)
             else be_unsigned (sub_bytes buf 8 8) - 2 ^ 64).
Proof.
  intros Hb Hs Hl Hm Ht.
  eexists _, _, _, _. split; [apply decodeframe_message; assumption|].
  pose proof (be_unsigned_range (sub_bytes buf 8 8)) as Hr.
  rewrite length_sub_bytes in Hr by lia. change (256 ^ 8) with (2 ^ 64) in Hr.
  destruct (be_unsigned (sub_bytes buf 8 8) <? 2 ^ 63) eqn:E.
  - apply Z.ltb_lt in E. apply to_lua_Integer_small. frame_lia.
  - apply Z.ltb_ge in E.
    set (T := be_unsigned (sub_bytes buf 8 8)) in *.
    replace (to_lua_Integer T) with (to_lua_Integer (T - 2 ^ 64 + 2 ^ 64))
      by (f_equal; lia).
    rewrite to_lua_Integer_wrap. apply to_lua_Integer_small. frame_lia.
Qed.

Lemma X6_timestamp_is_signed_witness :
  (lua_string late_message_frame
   /\ 30 <= frame_size late_message_frame
   /\ frame_size late_message_frame + 4 <= buf_len late_message_frame
   /\ frame_size late_message_frame + 4 <= INT_MAX
   /\ frame_type late_message_frame = NSQPP_FRAME_MESSAGE)
  /\ exists body id ns att,
      decodeframe late_message_frame
      = Done [LInteger NSQPP_FRAME_MESSAGE;
              LInteger (frame_size late_message_frame + 4);
              LString body; LString id; LInteger ns; LInteger att]
      /\ ns = (if be_unsigned (sub_bytes late_message_frame 8 8) <? 2 ^ 63
               then be_unsigned (sub_bytes late_message_frame 8 8)
               else be_unsigned (sub_bytes late_message_frame 8 8) - 2 ^ 64).
Proof.
  split.
  - repeat split; vm_compute; (reflexivity || discriminate).
  - apply (X6_timestamp_is_signed late_message_frame);
      vm_compute; (reflexivity || discriminate).
Defined.

Example late_timestamp_is_negative :
  decodeframe late_message_frame
  = Done [LInteger NSQPP_FRAME_MESSAGE; LInteger 34; LString [];
          LString message_id; LInteger (-9223372036854775807); LInteger 0].
Proof. vm_compute. reflexivity. Qed.

(** X7.  A buffer of at least 4 bytes that holds fewer payload bytes than
    its size field says is answered with the partial code and the exact
    number of bytes missing, size - (len - 4), which is positive. *)
Theorem X7_exact_shortfall (buf : list byte) :
  4 <= buf_len buf ->
  buf_len buf - 4 < frame_size buf ->
  decodeframe buf
  = Done [LInteger NSQPP_FRAME_PARTIAL;
          LInteger (frame_size buf - (buf_len buf - 4))]
  /\ 0 < frame_size buf - (buf_len buf - 4).
Proof.
  intros H4 Hk. split; [apply decodeframe_shortfall; assumption | lia].
Qed.

Lemma X7_exact_shortfall_witness :
  (4 <= buf_len message_header8
   /\ buf_len message_header8 - 4 < frame_size message_header8)
  /\ decodeframe message_header8
     = Done [LInteger NSQPP_FRAME_PARTIAL; LInteger 4].
Proof.
  split.
  - split; vm_compute; (reflexivity || discriminate).
  - apply (X7_exact_shortfall message_header8);
      vm_compute; (reflexivity || discriminate).
Defined.

(** X8.  After a partial answer with need = size - (len - 4), decoding the
    buffer extended by exactly that many bytes never gives the partial
    answer again. *)
Theorem X8_retry_is_not_partial (buf ext : list byte) (need : Z) :
  4 <= buf_len buf ->
  buf_len buf - 4 < frame_size buf ->
  buf_len ext = frame_size buf - (buf_len buf - 4) ->
  decodeframe (buf ++ ext)
  <> Done [LInteger NSQPP_FRAME_PARTIAL; LInteger need].
Proof. apply decodeframe_retry_not_partial. Qed.

Lemma X8_retry_is_not_partial_witness :
  (4 <= buf_len [x00; x00; x00; x06; x00; x00]
   /\ buf_len [x00; x00; x00; x06; x00; x00] - 4
      < frame_size [x00; x00; x00; x06; x00; x00]
   /\ buf_len [x00; x00; x4f; x4b]
      = frame_size [x00; x00; x00; x06; x00; x00]
        - (buf_len [x00; x00; x00; x06; x00; x00] - 4))
  /\ decodeframe ([x00; x00; x00; x06; x00; x00] ++ [x00; x00; x4f; x4b])
     <> Done [LInteger NSQPP_FRAME_PARTIAL; LInteger 4].
Proof.
  split.
  - repeat split; vm_compute; (reflexivity || discriminate).
  - apply (X8_retry_is_not_partial
             [x00; x00; x00; x06; x00; x00] [x00; x00; x4f; x4b] 4);
      vm_compute; (reflexivity || discriminate).
Defined.

(** X9.  A complete frame in a Lua string, with its 8 header bytes there,
    whose size is below the fixed part of its type -- below 4 for type 0
    or 1, below 30 for type 2 -- returns no values: the negative length
    goes to [lua_pushlstring]. *)
Theorem X9_undersized_frame_faults (buf : list byte) :
  lua_string buf ->
  0 <= frame_size buf ->
  frame_size buf + 4 <= buf_len buf ->
  8 <= buf_len buf ->
  ((frame_type buf = NSQPP_FRAME_RESPONSE \/ frame_type buf = NSQPP_FRAME_ERROR)
   /\ frame_size buf < 4)
  \/ (frame_type buf = NSQPP_FRAME_MESSAGE /\ frame_size buf < 30) ->
  decodeframe buf = Fault.
Proof. apply decodeframe_undersized. Qed.

Lemma X9_undersized_frame_faults_witness :
  (lua_string undersized_error
   /\ 0 <= frame_size undersized_error
   /\ frame_size undersized_error + 4 <= buf_len undersized_error
   /\ 8 <= buf_len undersized_error
   /\ frame_type undersized_error = NSQPP_FRAME_ERROR
   /\ frame_size undersized_error < 4)
  /\ decodeframe undersized_error = Fault.
Proof.
  split.
  - repeat split; vm_compute; (reflexivity || discriminate).
  - apply (X9_undersized_frame_faults undersized_error);
      try (vm_compute; (reflexivity || discriminate)).
    left. split; [right|]; vm_compute; reflexivity.
Defined.

(** X10.  Whatever the decoder returns has one of four shapes: the partial
    code and a need; the invalid-frame code and consumed; the type 0 or 1,
    consumed and a body; or the type 2, consumed, a body, an id of 16
    bytes, a timestamp and a number in [0, 2^16). *)
Theorem X10_shape_of_the_answer (buf : list byte) (vals : list value) :
  decodeframe buf = Done vals ->
  (exists need, vals = [LInteger NSQPP_FRAME_PARTIAL; LInteger need])
  \/ (exists consumed, vals = [LInteger NSQPP_FRAME_INVAL; LInteger consumed])
  \/ (exists kind consumed body,
        (kind = NSQPP_FRAME_RESPONSE \/ kind = NSQPP_FRAME_ERROR)
        /\ vals = [LInteger kind; LInteger consumed; LString body])
  \/ (exists consumed body id ns att,
        length id = 16%nat /\ 0 <= att < 2 ^ 16
        /\ vals = [LInteger NSQPP_FRAME_MESSAGE; LInteger consumed;
                   LString body; LString id; LInteger ns; LInteger att]).
Proof. apply decodeframe_shape. Qed.

Lemma X10_shape_of_the_answer_witness :
  decodeframe message_frame
  = Done [LInteger NSQPP_FRAME_MESSAGE; LInteger 39;
          LString message_body; LString message_id;
          LInteger 1500000000000000000; LInteger 4621]
  /\ ((exists need,
         [LInteger NSQPP_FRAME_MESSAGE; LInteger 39;
          LString message_body; LString message_id;
          LInteger 1500000000000000000; LInteger 4621]
         = [LInteger NSQPP_FRAME_PARTIAL; LInteger need])
      \/ (exists consumed,
            [LInteger NSQPP_FRAME_MESSAGE; LInteger 39;
             LString message_body; LString message_id;
             LInteger 1500000000000000000; LInteger 4621]
            = [LInteger NSQPP_FRAME_INVAL; LInteger consumed])
      \/ (exists kind consumed body,
            (kind = NSQPP_FRAME_RESPONSE \/ kind = NSQPP_FRAME_ERROR)
            /\ [LInteger NSQPP_FRAME_MESSAGE; LInteger 39;
                LString message_body; LString message_id;
                LInteger 1500000000000000000; LInteger 4621]
               = [LInteger kind; LInteger consumed; LString body])
      \/ (exists consumed body id ns att,
            length id = 16%nat /\ 0 <= att < 2 ^ 16
            /\ [LInteger NSQPP_FRAME_MESSAGE; LInteger 39;
                LString message_body; LString message_id;
                LInteger 1500000000000000000; LInteger 4621]
               = [LInteger NSQPP_FRAME_MESSAGE; LInteger consumed;
                  LString body; LString id; LInteger ns; LInteger att])).
Proof.
  split.
  - vm_compute. reflexivity.
  - apply (X10_shape_of_the_answer message_frame). vm_compute. reflexivity.
Defined.



(** X12.  When a buffer of at least 8 bytes holds a complete frame, bytes
    appended to it have no part in the answer: the longer buffer (still a
    Lua string) decodes as the shorter one. *)
Theorem X12_trailing_bytes_ignored (buf ext : list byte) :
  lua_string (buf ++ ext) ->
  8 <= buf_len buf ->
  0 <= frame_size buf ->
  frame_size buf + 4 <= buf_len buf ->
  decodeframe (buf ++ ext) = decodeframe buf.
Proof. apply decodeframe_prefix. Qed.

Lemma X12_trailing_bytes_ignored_witness :
  (lua_string (ok_frame ++ message_frame)
   /\ 8 <= buf_len ok_frame
   /\ 0 <= frame_size ok_frame
   /\ frame_size ok_frame + 4 <= buf_len ok_frame)
  /\ decodeframe (ok_frame ++ message_frame) = decodeframe ok_frame.
Proof.
  split.
  - repeat split; vm_compute; (reflexivity || discriminate).
  - apply (X12_trailing_bytes_ignored ok_frame message_frame);
      vm_compute; (reflexivity || discriminate).
Defined.









(** ** Encoder and decoder together *)

(** X15.  A frame put together from the encoder's prefix for 4+n, the
    encoder's prefix for the type 0 or 1, and a body of n bytes (8+n within
    [int]) decodes to that type, consumed = 8+n and that body. *)
Theorem X15_encoded_frame_decodes
  (body p t : list byte) (kind : Z) :
  kind = NSQPP_FRAME_RESPONSE \/ kind = NSQPP_FRAME_ERROR ->
  buf_len body + 8 <= INT_MAX ->
  htonl_bytes (4 + buf_len body) = Done [LString p] ->
  htonl_bytes kind = Done [LString t] ->
  decodeframe (p ++ t ++ body)
  = Done [LInteger kind; LInteger (8 + buf_len body); LString body].
Proof.
  intros Hk Hm Hp Ht.
  pose proof (buf_len_nonneg body) as Hn.
  destruct (htonl_bytes_header _ _ Hp) as (Lp & Vp).
  destruct (htonl_bytes_header _ _ Ht) as (Lt & Vt).
  destruct (frame_of_parts p t body Lp Lt) as (Es & Et & Eb & El).
  rewrite Vp in Es. rewrite Vt in Et.
  rewrite to_int32_small in Es by frame_lia.
  rewrite to_int32_small in Et by (destruct Hk; frame_lia).
  rewrite decodeframe_reply.
  - rewrite Es, Et.
    replace (4 + buf_len body + 4) with (8 + buf_len body) by lia.
    replace (4 + buf_len body - 4) with (buf_len body) by lia.
    rewrite Eb. reflexivity.
  - frame_lia.
  - lia.
  - lia.
  - frame_lia.
  - rewrite Et. exact Hk.
Qed.

Lemma X15_encoded_frame_decodes_witness :
  (NSQPP_FRAME_RESPONSE = NSQPP_FRAME_RESPONSE
   /\ buf_len [x4f; x4b] + 8 <= INT_MAX
   /\ htonl_bytes (4 + buf_len [x4f; x4b])
      = Done [LString [x00; x00; x00; x06]]
   /\ htonl_bytes NSQPP_FRAME_RESPONSE = Done [LString [x00; x00; x00; x00]])
  /\ decodeframe ([x00; x00; x00; x06] ++ [x00; x00; x00; x00] ++ [x4f; x4b])
     = Done [LInteger NSQPP_FRAME_RESPONSE; LInteger (8 + buf_len [x4f; x4b]);
             LString [x4f; x4b]].
Proof.
  split.
  - repeat split; vm_compute; (reflexivity || discriminate).
  - apply (X15_encoded_frame_decodes [x4f; x4b]
             [x00; x00; x00; x06] [x00; x00; x00; x00] NSQPP_FRAME_RESPONSE).
    + left. reflexivity.
    + vm_compute. discriminate.
    + vm_compute. reflexivity.
    + vm_compute. reflexivity.
Defined.

(** X16.  The encoder's prefix for a count in (0, 2^31), decoded on its
    own, is answered with the partial code and need = count. *)
Theorem X16_prefix_alone_asks_for_count (count : Z) (p : list byte) :
  0 < count < 2 ^ 31 ->
  htonl_bytes count = Done [LString p] ->
  decodeframe p = Done [LInteger NSQPP_FRAME_PARTIAL; LInteger count].
Proof.
  intros Hc Hp.
  destruct (htonl_bytes_header _ _ Hp) as (Lp & Vp).
  assert (Es : frame_size p = count).
  { unfold frame_size. rewrite <- Lp, sub_bytes_whole, Vp.
    apply to_int32_small. frame_lia. }
  rewrite decodeframe_shortfall by lia.
  rewrite Es, Lp. replace (count - (4 - 4)) with count by lia. reflexivity.
Qed.

Lemma X16_prefix_alone_asks_for_count_witness :
  (0 < 20 < 2 ^ 31
   /\ htonl_bytes 20 = Done [LString [x00; x00; x00; x14]])
  /\ decodeframe [x00; x00; x00; x14]
     = Done [LInteger NSQPP_FRAME_PARTIAL; LInteger 20].
Proof.
  split.
  - split; [lia | vm_compute; reflexivity].
  - apply (X16_prefix_alone_asks_for_count 20 [x00; x00; x00; x14]);
      [lia | vm_compute; reflexivity].
Defined.

(** X19.  Two integers get the same prefix from the encoder exactly when
    they are equal modulo 2^32; in particular distinct counts in [0, 2^32)
    get distinct prefixes. *)
Theorem X19_encoder_equal_iff_congruent (a b : Z) :
  htonl_bytes a = htonl_bytes b <-> a mod 2 ^ 32 = b mod 2 ^ 32.
Proof.
  rewrite !htonl_lua_run. split.
  - intros H.
    assert (E : rev (le_bytes 4 (to_uint32 a)) = rev (le_bytes 4 (to_uint32 b)))
      by congruence.
    apply (f_equal be_unsigned) in E. rewrite !be_unsigned_storage in E.
    unfold to_uint32, wrap_unsigned in E.
    rewrite !Z.mod_mod in E by frame_lia. exact E.
  - intros H. unfold to_uint32, wrap_unsigned. rewrite H. reflexivity.
Qed.

(** ** The module table: properties *)

Module LuaOpenFacts.

Import Stdlib.Strings.String.
Import LuaOpen.

Local Open Scope string_scope.

(** X18.  [luaopen_nsqpp_util] returns one table with seven entries: the
    two functions under "htonl" and "decodeframe", and the five frame
    codes.  Every first value that "decodeframe" can return is the value of
    one of the table's entries. *)
Theorem X18_module_table :
  exists t : list (string * tvalue),
    nsqpp_util = Done [TTable t]
    /\ map fst t
       = ["htonl"; "decodeframe"; "FRAME_INVAL"; "FRAME_PARTIAL";
          "FRAME_RESPONSE"; "FRAME_ERROR"; "FRAME_MESSAGE"]
    /\ (forall n, call_entry t "htonl" [LInteger n] = htonl_bytes n)
    /\ (forall buf, call_entry t "decodeframe" [LString buf] = decodeframe buf)
    /\ (forall buf kind rest,
          call_entry t "decodeframe" [LString buf]
          = Done (LInteger kind :: rest) ->
          exists k, rawget t k = Some (TInteger kind)).
Proof.
  exists [("htonl", TCFunction htonl_lua);
          ("decodeframe", TCFunction decodeframe_lua);
          ("FRAME_INVAL", TInteger NSQPP_FRAME_INVAL);
          ("FRAME_PARTIAL", TInteger NSQPP_FRAME_PARTIAL);
          ("FRAME_RESPONSE", TInteger NSQPP_FRAME_RESPONSE);
          ("FRAME_ERROR", TInteger NSQPP_FRAME_ERROR);
          ("FRAME_MESSAGE", TInteger NSQPP_FRAME_MESSAGE)].
  split; [reflexivity|]. split; [reflexivity|].
  split; [intros n; reflexivity|]. split; [intros buf; reflexivity|].
  intros buf kind rest Hrun.
  change (decodeframe buf = Done (LInteger kind :: rest)) in Hrun.
  destruct (decodeframe_shape buf _ Hrun)
    as [(need & E) | [(c & E) | [(k & c & body & [Hk | Hk] & E)
                                | (c & body & id & ns & att & _ & _ & E)]]];
    injection E as -> _; subst.
  - exists "FRAME_PARTIAL". reflexivity.
  - exists "FRAME_INVAL". reflexivity.
  - exists "FRAME_RESPONSE". reflexivity.
  - exists "FRAME_ERROR". reflexivity.
  - exists "FRAME_MESSAGE". reflexivity.
Qed.

End LuaOpenFacts.
